(** * HoverFill: edge detection, transition tables and interaction handlers

    A shallow embedding of [src/HoverFill.tsx].  The file holds two
    React components that share their names: the wrapper component
    ([Module Wrapper], source lines 96-300) and the overlay component that
    listens on its parent element ([Module Hook], source lines 360-521).

    - JavaScript numbers are IEEE 754 binary64 values: [spec_float] at
      precision 53 and maximal exponent 1024, with [Math.abs], [Math.min],
      subtraction and [===] written out.
    - SVG attribute values are strings, as in the source.
    - A handler is a function on the component state; a call of the
      animation driver is recorded, with its arguments and the timeline it
      builds, in the state's list of animation calls.
    - The wrapper keeps its flag in [useState]: a handler reads the value
      of the render it was created in, and a value it sets is seen from the
      next render on.  The hook variant keeps its flag in a ref, written
      and read at once. *)

From Stdlib Require Import ZArith QArith Qminmax List String Ascii Bool Lia.
From Stdlib Require Import Floats.SpecFloat.
From stdpp Require Import base gmap strings.

Import ListNotations.
Local Open Scope Z_scope.

(** ** JavaScript numbers *)

Module JS.

(** A JS [number] is a binary64 float. *)
Definition number : Type := spec_float.

Definition prec : Z := 53.
Definition emax : Z := 1024.

Definition NaN : number := S754_nan.
Definition Infinity : number := S754_infinity false.

(** The double nearest to an integer literal. *)
Definition of_Z (z : Z) : number := binary_normalize prec emax z 0 false.

Definition isNaN (x : number) : bool :=
  match x with S754_nan => true | _ => false end.

(** Neither NaN nor an infinity. *)
Definition isFinite (x : number) : bool :=
  match x with
  | S754_zero _ | S754_finite _ _ _ => true
  | _ => false
  end.

(** The binary [-] on numbers. *)
Definition sub (x y : number) : number := SFsub prec emax x y.

(** [Math.abs]. *)
Definition Math_abs (x : number) : number := SFabs x.

(** [x < y] (false when either is NaN). *)
Definition lt (x y : number) : bool := SFltb x y.

(** [x <= y] (false when either is NaN). *)
Definition le (x y : number) : bool := SFleb x y.

(** [x === y] on numbers: false when either is NaN, [+0 === -0]. *)
Definition strict_eq (x y : number) : bool := SFeqb x y.

Definition is_neg_zero (x : number) : bool :=
  match x with S754_zero true => true | _ => false end.

Definition is_pos_zero (x : number) : bool :=
  match x with S754_zero false => true | _ => false end.

(** One step of the loop of [Math.min]: [-0] replaces [+0], and a
    strictly smaller number replaces the lowest so far. *)
Definition min_step (lowest n : number) : number :=
  if is_neg_zero n && is_pos_zero lowest then n
  else if lt n lowest then n
  else lowest.

(** [Math.min(...args)]: NaN when any argument is NaN, otherwise the
    lowest argument, starting from [+Infinity]. *)
Definition Math_min (args : list number) : number :=
  if existsb isNaN args then NaN
  else fold_left min_step args Infinity.

End JS.

(** ** The edge-direction detector (source lines 18-43 and 333-358) *)

Inductive Direction : Type := top | bottom | left | right.

Definition Direction_eqb (a b : Direction) : bool :=
  match a, b with
  | top, top | bottom, bottom | left, left | right, right => true
  | _, _ => false
  end.

(** [mouseDirection === 'name']: false when the detector returned
    [undefined]. *)
Definition is_direction (mouseDirection : option Direction) (name : Direction)
  : bool :=
  match mouseDirection with
  | Some a => Direction_eqb a name
  | None => false
  end.

(** What [getBoundingClientRect] returns, with the fields the code reads. *)
Record DOMRect : Type := mkDOMRect {
  rect_top : JS.number;
  rect_bottom : JS.number;
  rect_left : JS.number;
  rect_right : JS.number
}.

Record HTMLElement : Type := mkHTMLElement {
  getBoundingClientRect : DOMRect
}.

Record MouseEvent : Type := mkMouseEvent {
  clientX : JS.number;
  clientY : JS.number;
  target : HTMLElement
}.

Definition topEdgeDistance (e : MouseEvent) (el : HTMLElement) : JS.number :=
  JS.Math_abs (JS.sub (rect_top (getBoundingClientRect el)) (clientY e)).

Definition bottomEdgeDistance (e : MouseEvent) (el : HTMLElement) : JS.number :=
  JS.Math_abs (JS.sub (rect_bottom (getBoundingClientRect el)) (clientY e)).

Definition leftEdgeDistance (e : MouseEvent) (el : HTMLElement) : JS.number :=
  JS.Math_abs (JS.sub (rect_left (getBoundingClientRect el)) (clientX e)).

Definition rightEdgeDistance (e : MouseEvent) (el : HTMLElement) : JS.number :=
  JS.Math_abs (JS.sub (rect_right (getBoundingClientRect el)) (clientX e)).

(** The [switch (min)] of the source: the cases are tried in order with
    [===]; there is no [default], so the function returns [undefined]
    ([None]) when no case matches. *)
Definition getMouseEnterDirection (e : MouseEvent) (el : HTMLElement)
  : option Direction :=
  let min :=
    JS.Math_min [topEdgeDistance e el; bottomEdgeDistance e el;
                 leftEdgeDistance e el; rightEdgeDistance e el] in
  if JS.strict_eq min (topEdgeDistance e el) then Some top
  else if JS.strict_eq min (bottomEdgeDistance e el) then Some bottom
  else if JS.strict_eq min (leftEdgeDistance e el) then Some left
  else if JS.strict_eq min (rightEdgeDistance e el) then Some right
  else None.

(** The distance the detector associates with a direction. *)
Definition edgeDistance (e : MouseEvent) (el : HTMLElement) (d : Direction)
  : JS.number :=
  match d with
  | top => topEdgeDistance e el
  | bottom => bottomEdgeDistance e el
  | left => leftEdgeDistance e el
  | right => rightEdgeDistance e el
  end.

(** Position of a direction in the order of the [case] labels. *)
Definition priority (d : Direction) : nat :=
  match d with top => 0 | bottom => 1 | left => 2 | right => 3 end%nat.

(** Pointer and rectangle coordinates that are all finite numbers. *)
Definition finiteInput (e : MouseEvent) (el : HTMLElement) : bool :=
  JS.isFinite (clientX e) && JS.isFinite (clientY e)
  && JS.isFinite (rect_top (getBoundingClientRect el))
  && JS.isFinite (rect_bottom (getBoundingClientRect el))
  && JS.isFinite (rect_left (getBoundingClientRect el))
  && JS.isFinite (rect_right (getBoundingClientRect el)).

(** One of the four distances is NaN. *)
Definition someDistanceNaN (e : MouseEvent) (el : HTMLElement) : bool :=
  JS.isNaN (topEdgeDistance e el) || JS.isNaN (bottomEdgeDistance e el)
  || JS.isNaN (leftEdgeDistance e el) || JS.isNaN (rightEdgeDistance e el).

(** Concrete inputs: an element with the given integer edges and a pointer
    at integer client coordinates. *)
Definition elementAt (t b l r : Z) : HTMLElement :=
  mkHTMLElement (mkDOMRect (JS.of_Z t) (JS.of_Z b) (JS.of_Z l) (JS.of_Z r)).

Definition pointerAt (x y : Z) (el : HTMLElement) : MouseEvent :=
  mkMouseEvent (JS.of_Z x) (JS.of_Z y) el.

Definition box : HTMLElement := elementAt 10 60 20 220.

(** ** Reading SVG attribute values

    The source keeps a viewBox and a path as strings.  To speak about the
    numbers inside them, the strings are read back: a viewBox is four
    integers separated by blanks, a path of the source is [M x y] followed
    by quadratic segments [Q cx cy x y]. *)

Module Svg.

Definition digit (c : ascii) : option Z :=
  let n := Z.of_nat (nat_of_ascii c) in
  if (48 <=? n) && (n <=? 57) then Some (n - 48) else None.

Fixpoint parseDigits (s : string) (acc : Z) : option Z :=
  match s with
  | EmptyString => Some acc
  | String c s' =>
      match digit c with
      | Some k => parseDigits s' (10 * acc + k)
      | None => None
      end
  end.

Definition parseInt (s : string) : option Z :=
  match s with
  | EmptyString => None
  | String "-" EmptyString => None
  | String "-" s' => option_map Z.opp (parseDigits s' 0)
  | _ => parseDigits s 0
  end.

(** Split on blanks; [cur] is the token read so far. *)
Fixpoint tokens (s : string) (cur : string) : list string :=
  match s with
  | EmptyString => [cur]
  | String " " s' => cur :: tokens s' EmptyString
  | String c s' => tokens s' (cur ++ String c EmptyString)%string
  end.

Record ViewBox : Type := mkViewBox {
  minX : Z; minY : Z; width : Z; height : Z
}.

Definition parseViewBox (s : string) : option ViewBox :=
  match List.map parseInt (tokens s EmptyString) with
  | [Some x; Some y; Some w; Some h] => Some (mkViewBox x y w h)
  | _ => None
  end.

Definition Point : Type := (Z * Z)%type.

(** A quadratic segment: control point and end point. *)
Record Quad : Type := mkQuad { control : Point; endpoint : Point }.

Record Path : Type := mkPath { start : Point; quads : list Quad }.

Fixpoint parseQuads (fuel : nat) (ts : list string) : option (list Quad) :=
  match fuel, ts with
  | _, [] => Some []
  | S fuel', q :: cx :: cy :: x :: y :: rest =>
      if String.eqb q "Q" then
        match parseInt cx, parseInt cy, parseInt x, parseInt y,
              parseQuads fuel' rest with
        | Some cx', Some cy', Some x', Some y', Some qs =>
            Some (mkQuad (cx', cy') (x', y') :: qs)
        | _, _, _, _, _ => None
        end
      else None
  | _, _ => None
  end.

Definition parsePath (s : string) : option Path :=
  match tokens s EmptyString with
  | m :: x :: y :: rest =>
      if String.eqb m "M" then
        match parseInt x, parseInt y, parseQuads (List.length rest) rest with
        | Some x', Some y', Some qs => Some (mkPath (x', y') qs)
        | _, _, _ => None
        end
      else None
  | _ => None
  end.

(** Every point the path mentions: its start, and the control point and
    end point of each segment.  A quadratic segment stays inside the
    triangle of its three points. *)
Definition points (p : Path) : list Point :=
  start p :: flat_map (fun q => [control q; endpoint q]) (quads p).

(** The corners the path visits, in order. *)
Definition vertices (p : Path) : list Point :=
  start p :: List.map endpoint (quads p).

(** Each segment is a straight line: its control point is the midpoint
    of the two points it joins. *)
Fixpoint straightFrom (a : Point) (qs : list Quad) : bool :=
  match qs with
  | [] => true
  | q :: qs' =>
      (2 * fst (control q) =? fst a + fst (endpoint q))
      && (2 * snd (control q) =? snd a + snd (endpoint q))
      && straightFrom (endpoint q) qs'
  end.

Definition straight (p : Path) : bool := straightFrom (start p) (quads p).

(** The corners of the window a viewBox shows, clockwise from its
    origin and back. *)
Definition corners (vb : ViewBox) : list Point :=
  [(minX vb, minY vb); (minX vb + width vb, minY vb);
   (minX vb + width vb, minY vb + height vb);
   (minX vb, minY vb + height vb); (minX vb, minY vb)].

(** The path is the outline of the window: the shape fills exactly what
    the viewBox shows. *)
Definition fillsWindow (vb : ViewBox) (p : Path) : bool :=
  straight p && bool_decide (vertices p = corners vb).

(** The point lies in the window the viewBox shows. *)
Definition inWindow (vb : ViewBox) (pt : Point) : bool :=
  (minX vb <=? fst pt) && (fst pt <=? minX vb + width vb)
  && (minY vb <=? snd pt) && (snd pt <=? minY vb + height vb).

(** All of the path lies strictly above the window (smaller [y]), so
    nothing of the shape is visible. *)
Definition aboveWindow (vb : ViewBox) (p : Path) : bool :=
  forallb (fun pt => snd pt <? minY vb) (points p).

(** The viewBox has the size of [center] and is moved along one axis
    only, by [k] or [-k]. *)
Definition shiftedOneAxis (k : Z) (center vb : ViewBox) : bool :=
  (width vb =? width center) && (height vb =? height center)
  && (((Z.abs (minX vb - minX center) =? k) && (minY vb =? minY center))
      || ((minX vb =? minX center) && (Z.abs (minY vb - minY center) =? k))).

End Svg.

(** ** The animation engine

    The engine (the gsap library) is an external collaborator.  A timeline
    is modelled by what the code puts on it: a list of children, each with
    the attribute it drives, its start time on the timeline, its duration
    and its easing.  Times are exact rationals, in seconds. *)

Module Gsap.

(** The two nodes the component owns: [svgRef.current] and
    [pathRef.current]. *)
Inductive Target : Type := svg | path.

Inductive Kind : Type :=
| SetAttr   (* [tl.set]: written at once when its time comes, no tween *)
| TweenAttr (* [tl.to]: tweened over the duration *).

Record Child : Type := mkChild {
  kind : Kind;
  node : Target;
  attr : string;
  value : string;
  startTime : Q;
  duration : Q;
  ease : string
}.

Record Timeline : Type := mkTimeline {
  defaultDuration : Q;
  defaultEase : string;
  children : list Child
}.

(** [gsap.timeline({ defaults: { duration, ease } })]. *)
Definition timeline (dur : Q) (e : string) : Timeline := mkTimeline dur e [].

Definition endTime (c : Child) : Q := (startTime c + duration c)%Q.

(** The end of the timeline: the latest end of its children. *)
Definition totalDuration (tl : Timeline) : Q :=
  fold_left (fun acc c => Qmax acc (endTime c)) (children tl) 0%Q.

(** The third argument of [tl.to]: omitted, a number, or a string. *)
Inductive Position : Type :=
| Omitted
| Seconds (t : Q)
| Relative (s : string).

(** Split a trailing percent sign off. *)
Fixpoint stripPercent (s : string) : string * bool :=
  match s with
  | EmptyString => (EmptyString, false)
  | String "%" EmptyString => (EmptyString, true)
  | String c s' => let '(r, p) := stripPercent s' in (String c r, p)
  end.

(** Read ["-=70%"] as the offset [-70] in percent, ["+=2"] as [2] seconds. *)
Definition parseRelative (s : string) : option (Q * bool) :=
  match s with
  | String sign (String "=" rest) =>
      let '(digits, percent) := stripPercent rest in
      match Svg.parseDigits digits 0, digits with
      | _, EmptyString => None
      | Some n, _ =>
          if Ascii.eqb sign "-" then Some (inject_Z (- n), percent)
          else if Ascii.eqb sign "+" then Some (inject_Z n, percent)
          else None
      | None, _ => None
      end
  | _ => None
  end.

(** Modelled from the spec: where the engine, which is not part of the
    sources, places a new child.  A number is an absolute time; no position
    means the end of the timeline; a relative string is an offset from the
    end of the timeline, and a percentage is taken of the duration of the
    child being inserted, so that a negative one is (section 6) a
    "percentage of duration before the end of the concurrent group".
    Strings of other forms, which the program does not use, fall back to the
    end of the timeline. *)
Definition resolvePosition (tl : Timeline) (pos : Position) (childDuration : Q)
  : Q :=
  match pos with
  | Omitted => totalDuration tl
  | Seconds t => t
  | Relative s =>
      match parseRelative s with
      | Some (offset, true) =>
          (totalDuration tl + offset / 100 * childDuration)%Q
      | Some (offset, false) => (totalDuration tl + offset)%Q
      | None => totalDuration tl
      end
  end.

Definition add (tl : Timeline) (c : Child) : Timeline :=
  mkTimeline (defaultDuration tl) (defaultEase tl) (children tl ++ [c]).

(** [tl.set(target, { attr: { name: v } })]: a child without duration at
    the end of the timeline. *)
Definition tl_set (tl : Timeline) (t : Target) (name v : string) : Timeline :=
  add tl (mkChild SetAttr t name v (resolvePosition tl Omitted 0) 0
                  (defaultEase tl)).

(** [tl.to(target, { attr: { name: v } }, position)]: a tween with the
    timeline's default duration and easing. *)
Definition tl_to (tl : Timeline) (t : Target) (name v : string)
  (pos : Position) : Timeline :=
  add tl (mkChild TweenAttr t name v
                  (resolvePosition tl pos (defaultDuration tl))
                  (defaultDuration tl) (defaultEase tl)).

End Gsap.

(** The attributes of the overlay's two nodes. *)
Record DOM : Type := mkDOM {
  viewBox : string;       (* attribute of the svg element *)
  d : option string       (* attribute of the path element *)
}.

(** One call of the animation driver: its three arguments and the
    timeline it built. *)
Record AnimationCall : Type := mkAnimationCall {
  vbFrom : string;
  vbTo : string;
  drawPath : string;
  built : Gsap.Timeline
}.

Definition arguments (c : AnimationCall) : string * string * string :=
  (vbFrom c, vbTo c, drawPath c).

(** The eight named transitions. *)
Inductive Transition : Type :=
| SlideDownOut | SlideUpIn | SlideUpOut | SlideDownIn
| SlideLeftIn | SlideRightIn | SlideLeftOut | SlideRightOut.

(** The same kind of transition in the opposite compass direction. *)
Definition opposite (t : Transition) : Transition :=
  match t with
  | SlideDownOut => SlideUpOut
  | SlideUpOut => SlideDownOut
  | SlideUpIn => SlideDownIn
  | SlideDownIn => SlideUpIn
  | SlideLeftIn => SlideRightIn
  | SlideRightIn => SlideLeftIn
  | SlideLeftOut => SlideRightOut
  | SlideRightOut => SlideLeftOut
  end.

(** A pointer event on the host element. *)
Inductive PointerEvent : Type :=
| Enter (e : MouseEvent)
| Leave (e : MouseEvent).

Definition mouseEvent (ev : PointerEvent) : MouseEvent :=
  match ev with Enter e | Leave e => e end.

(** Directions a tab animation can be configured with
    (['up' | 'down' | 'left' | 'right']). *)
Module Tab.
Inductive Direction : Type := up | down | left | right.
End Tab.

(** ** The wrapper component (source lines 96-300) *)

Module Wrapper.

(** The component's own props, with the names of [HoverFillProps];
    [fillZ = None] stands for ['auto']. *)
Record Props : Type := mkProps {
  fillColor : string;
  fillOpacity : Q;
  fillDuration : Q;
  fillPin : bool;
  fillInvertColors : bool;
  fillOnTab : bool;
  fillTabEnter : Tab.Direction;
  fillTabLeave : Tab.Direction;
  fillInvert : bool;
  fillZ : option Z
}.

(** The defaults of the destructuring pattern (lines 101-110). *)
Definition defaultProps : Props :=
  mkProps "white" 1 (1 # 2) false false false Tab.up Tab.down false (Some (-1)).

(** [isFilled] is the [isFilled] constant of the latest render (line 120):
    the value the handlers of that render closed over and read.  [pending]
    is the last value [setIsFilled] was called with since that render, if
    any; the next render makes it the new [isFilled].  [dom] holds the
    attributes of the svg and path nodes; [animations] lists the driver
    calls so far. *)
Record State : Type := mkState {
  isFilled : bool;
  pending : option bool;
  dom : DOM;
  animations : list AnimationCall
}.

(** [setIsFilled(b)] queues the value for the next render; the handlers
    already created keep reading the [isFilled] of their render. *)
Definition setIsFilled (b : bool) (st : State) : State :=
  mkState (isFilled st) (Some b) (dom st) (animations st).

(** A re-render: [useState] returns the queued value, and the handlers
    are created anew around it. *)
Definition render (st : State) : State :=
  mkState (default (isFilled st) (pending st)) None (dom st) (animations st).

(** The state as the handlers of a render with [isFilled = b] read it. *)
Definition withIsFilled (b : bool) (st : State) : State :=
  mkState b (pending st) (dom st) (animations st).

Definition vbCenter : string := "0 0 100 100".
Definition vbTop : string := "0 101 100 100".
Definition vbBottom : string := "0 -101 100 100".
Definition vbLeft : string := "101 0 100 100".
Definition vbRight : string := "-101 0 100 100".

Definition squarePath : string :=
  "M 0 0 Q 50 0 100 0 Q 100 50 100 100 Q 50 100 0 100 Q 0 50 0 0".
Definition concaveTopPath : string :=
  "M 0 0 Q 50 50 100 0 Q 100 50 100 100 Q 50 100 0 100 Q 0 50 0 0".
Definition concaveRightPath : string :=
  "M 0 0 Q 50 0 100 0 Q 50 50 100 100 Q 50 100 0 100 Q 0 50 0 0".
Definition concaveBottomPath : string :=
  "M 0 0 Q 50 0 100 0 Q 100 50 100 100 Q 50 50 0 100 Q 0 50 0 0".
Definition concaveLeftPath : string :=
  "M 0 0 Q 50 0 100 0 Q 100 50 100 100 Q 50 100 0 100 Q 50 50 0 0".
Definition convexTopPath : string :=
  "M 0 0 Q 50 -50 100 0 Q 100 50 100 100 Q 50 100 0 100 Q 0 50 0 0".
Definition convexBottomPath : string :=
  "M 0 0 Q 50 0 100 0 Q 100 50 100 100 Q 50 150 0 100 Q 0 50 0 0".
Definition convexLeftPath : string :=
  "M 0 0 Q 50 0 100 0 Q 100 50 100 100 Q 50 100 0 100 Q -50 50 0 0".
Definition convexRightPath : string :=
  "M 0 0 Q 50 0 100 0 Q 150 50 100 100 Q 50 100 0 100 Q 0 50 0 0".

(** The timeline of lines 153-183. *)
Definition buildTimeline (p : Props) (vbFrom vbTo drawPath : string)
  : Gsap.Timeline :=
  let tl := Gsap.timeline (fillDuration p) "power2.out" in
  let tl := Gsap.tl_set tl Gsap.svg "viewBox" vbFrom in
  let tl := Gsap.tl_to tl Gsap.svg "viewBox" vbTo (Gsap.Seconds 0) in
  let tl := Gsap.tl_to tl Gsap.path "d" drawPath (Gsap.Seconds 0) in
  Gsap.tl_to tl Gsap.path "d" squarePath (Gsap.Relative "-=70%").

(** The animation driver (lines 150-184). *)
Definition animation (p : Props) (vbFrom vbTo drawPath : string) (st : State)
  : State :=
  mkState (isFilled st) (pending st) (dom st)
    (animations st
       ++ [mkAnimationCall vbFrom vbTo drawPath
             (buildTimeline p vbFrom vbTo drawPath)]).

Definition slideDownOut (p : Props) : State -> State :=
  animation p vbCenter vbBottom concaveTopPath.

Definition slideUpIn (p : Props) : State -> State :=
  animation p vbBottom vbCenter convexTopPath.

Definition slideUpOut (p : Props) : State -> State :=
  animation p vbCenter vbTop concaveBottomPath.

Definition slideDownIn (p : Props) : State -> State :=
  animation p vbTop vbCenter convexBottomPath.

Definition slideLeftIn (p : Props) : State -> State :=
  animation p vbLeft vbCenter convexRightPath.

Definition slideRightIn (p : Props) : State -> State :=
  animation p vbRight vbCenter convexLeftPath.

Definition slideLeftOut (p : Props) : State -> State :=
  animation p vbCenter vbLeft concaveRightPath.

Definition slideRightOut (p : Props) : State -> State :=
  animation p vbCenter vbRight concaveLeftPath.

(** The function each transition name stands for. *)
Definition play (t : Transition) : Props -> State -> State :=
  match t with
  | SlideDownOut => slideDownOut
  | SlideUpIn => slideUpIn
  | SlideUpOut => slideUpOut
  | SlideDownIn => slideDownIn
  | SlideLeftIn => slideLeftIn
  | SlideRightIn => slideRightIn
  | SlideLeftOut => slideLeftOut
  | SlideRightOut => slideRightOut
  end.

(** What the JSX of lines 274-295 renders before any effect runs. *)
Definition rendered : State := mkState false None (mkDOM "0 0 0 0" None) [].

(** The [useGSAP] callback (lines 218-223): two immediate [gsap.set]. *)
Definition onMount (p : Props) (st : State) : State :=
  mkState (isFilled st) (pending st)
    (mkDOM (if fillPin p then vbCenter else vbTop) (Some squarePath))
    (animations st).

(** The component after its first render and mount effect. *)
Definition mount (p : Props) : State := onMount p rendered.

Definition handleMouseEnter (p : Props) (e : MouseEvent) (st : State) : State :=
  if isFilled st then st
  else
    let st := setIsFilled true st in
    if fillPin p then st
    else
      let mouseDirection := getMouseEnterDirection e (target e) in
      if is_direction mouseDirection bottom then
        (if fillInvert p then slideDownIn p st else slideUpIn p st)
      else if is_direction mouseDirection top then
        (if fillInvert p then slideUpIn p st else slideDownIn p st)
      else if is_direction mouseDirection left then
        (if fillInvert p then slideRightIn p st else slideLeftIn p st)
      else
        (if fillInvert p then slideLeftIn p st else slideRightIn p st).

Definition handleMouseLeave (p : Props) (e : MouseEvent) (st : State) : State :=
  if negb (isFilled st) then st
  else
    let st := setIsFilled false st in
    if fillPin p then st
    else
      let mouseDirection := getMouseEnterDirection e (target e) in
      if is_direction mouseDirection bottom then
        (if fillInvert p then slideUpOut p st else slideDownOut p st)
      else if is_direction mouseDirection top then
        (if fillInvert p then slideDownOut p st else slideUpOut p st)
      else if is_direction mouseDirection left then
        (if fillInvert p then slideLeftOut p st else slideLeftOut p st)
      else
        (if fillInvert p then slideLeftOut p st else slideRightOut p st).

Definition handleFocus (p : Props) (st : State) : State :=
  if isFilled st then st
  else
    let st := setIsFilled true st in
    if fillPin p then st else slideUpIn p st.

Definition handleBlur (p : Props) (st : State) : State :=
  if negb (isFilled st) then st
  else
    let st := setIsFilled false st in
    if fillPin p then st else slideDownOut p st.

(** A value among the props of the host element: one of the component's
    own functions, or something the caller passed. *)
Inductive PropValue : Type :=
| SyncForwardedRef
| HandleMouseEnter
| HandleMouseLeave
| HandleFocus
| HandleBlur
| FromCaller (v : nat).

(** The props of [<Component ...>] (lines 267-273), in the order of the
    JSX: a later entry replaces an earlier one of the same name, so the
    caller's remaining [props], spread last, come first in the union. *)
Definition hostProps (p : Props) (props : gmap string PropValue)
  : gmap string PropValue :=
  props
  ∪ (if fillOnTab p
     then {[ "onFocus" := HandleFocus; "onBlur" := HandleBlur ]}
     else ∅)
  ∪ {[ "ref" := SyncForwardedRef;
       "onMouseEnter" := HandleMouseEnter;
       "onMouseLeave" := HandleMouseLeave ]}.

(** What happens to the mounted component: a pointer event reaches the
    handler of the latest render, or React re-renders. *)
Inductive Input : Type :=
| pointer (ev : PointerEvent)
| rerender.

Definition step (p : Props) (st : State) (i : Input) : State :=
  match i with
  | pointer (Enter e) => handleMouseEnter p e st
  | pointer (Leave e) => handleMouseLeave p e st
  | rerender => render st
  end.

Definition run (p : Props) (ins : list Input) (st : State) : State :=
  fold_left (step p) ins st.

(** Each event followed by a re-render before the next one arrives. *)
Definition renderedAfterEach (evs : list PointerEvent) : list Input :=
  flat_map (fun ev => [pointer ev; rerender]) evs.

End Wrapper.

(** ** The overlay component listening on its parent (source lines 360-521) *)

Module Hook.

(** The props of [UseHoverFillProps]; [invert] inverts the colours, this
    variant has no flag that inverts the direction; [z = None] stands for
    ['auto']. *)
Record Props : Type := mkProps {
  color : string;
  opacity : Q;
  duration : Q;
  pinned : bool;
  invert : bool;
  z : option Z
}.

Definition defaultProps : Props := mkProps "white" 1 (1 # 2) false false None.

(** [hovered] is the [useRef] cell. *)
Record State : Type := mkState {
  hovered : bool;
  dom : DOM;
  animations : list AnimationCall
}.

Definition setHovered (b : bool) (st : State) : State :=
  mkState b (dom st) (animations st).

Definition vbCenter : string := "0 0 100 100".
Definition vbTop : string := "0 101 100 100".
Definition vbBottom : string := "0 -101 100 100".
Definition vbLeft : string := "101 0 100 100".
Definition vbRight : string := "-101 0 100 100".

(** Line 377, with [hovered.current] as read during the render. *)
Definition vbInit (p : Props) (hoveredNow : bool) : string :=
  if pinned p then vbCenter else if hoveredNow then vbCenter else vbTop.

Definition squarePath : string :=
  "M 0 0 Q 50 0 100 0 Q 100 50 100 100 Q 50 100 0 100 Q 0 50 0 0".
Definition concaveTopPath : string :=
  "M 0 0 Q 50 50 100 0 Q 100 50 100 100 Q 50 100 0 100 Q 0 50 0 0".
Definition concaveRightPath : string :=
  "M 0 0 Q 50 0 100 0 Q 50 50 100 100 Q 50 100 0 100 Q 0 50 0 0".
Definition concaveBottomPath : string :=
  "M 0 0 Q 50 0 100 0 Q 100 50 100 100 Q 50 50 0 100 Q 0 50 0 0".
Definition concaveLeftPath : string :=
  "M 0 0 Q 50 0 100 0 Q 100 50 100 100 Q 50 100 0 100 Q 50 50 0 0".
Definition convexTopPath : string :=
  "M 0 0 Q 50 -50 100 0 Q 100 50 100 100 Q 50 100 0 100 Q 0 50 0 0".
Definition convexBottomPath : string :=
  "M 0 0 Q 50 0 100 0 Q 100 50 100 100 Q 50 150 0 100 Q 0 50 0 0".
Definition convexLeftPath : string :=
  "M 0 0 Q 50 0 100 0 Q 100 50 100 100 Q 50 100 0 100 Q -50 50 0 0".
Definition convexRightPath : string :=
  "M 0 0 Q 50 0 100 0 Q 150 50 100 100 Q 50 100 0 100 Q 0 50 0 0".

(** The timeline of lines 423-454; unlike the wrapper's it first resets
    the path to the square. *)
Definition buildTimeline (p : Props) (vbFrom vbTo drawPath : string)
  : Gsap.Timeline :=
  let tl := Gsap.timeline (duration p) "power2.out" in
  let tl := Gsap.tl_set tl Gsap.svg "viewBox" vbFrom in
  let tl := Gsap.tl_set tl Gsap.path "d" squarePath in
  let tl := Gsap.tl_to tl Gsap.svg "viewBox" vbTo (Gsap.Seconds 0) in
  let tl := Gsap.tl_to tl Gsap.path "d" drawPath (Gsap.Seconds 0) in
  Gsap.tl_to tl Gsap.path "d" squarePath (Gsap.Relative "-=70%").

(** The animation driver (lines 422-455). *)
Definition animation (p : Props) (vbFrom vbTo drawPath : string) (st : State)
  : State :=
  mkState (hovered st) (dom st)
    (animations st
       ++ [mkAnimationCall vbFrom vbTo drawPath
             (buildTimeline p vbFrom vbTo drawPath)]).

Definition slideDownOut (p : Props) : State -> State :=
  animation p vbCenter vbBottom concaveTopPath.

Definition slideUpIn (p : Props) : State -> State :=
  animation p vbBottom vbCenter convexTopPath.

Definition slideUpOut (p : Props) : State -> State :=
  animation p vbCenter vbTop concaveBottomPath.

Definition slideDownIn (p : Props) : State -> State :=
  animation p vbTop vbCenter convexBottomPath.

Definition slideLeftIn (p : Props) : State -> State :=
  animation p vbLeft vbCenter convexRightPath.

Definition slideRightIn (p : Props) : State -> State :=
  animation p vbRight vbCenter convexLeftPath.

Definition slideLeftOut (p : Props) : State -> State :=
  animation p vbCenter vbLeft concaveRightPath.

Definition slideRightOut (p : Props) : State -> State :=
  animation p vbCenter vbRight concaveLeftPath.

Definition play (t : Transition) : Props -> State -> State :=
  match t with
  | SlideDownOut => slideDownOut
  | SlideUpIn => slideUpIn
  | SlideUpOut => slideUpOut
  | SlideDownIn => slideDownIn
  | SlideLeftIn => slideLeftIn
  | SlideRightIn => slideRightIn
  | SlideLeftOut => slideLeftOut
  | SlideRightOut => slideRightOut
  end.

(** The first render (lines 497-520): the svg carries [vbInit] and the
    path the square, [hovered] starts false. *)
Definition mount (p : Props) : State :=
  mkState false (mkDOM (vbInit p false) (Some squarePath)) [].

Definition handleMouseEnter (p : Props) (e : MouseEvent) (st : State) : State :=
  if hovered st then st
  else
    let st := setHovered true st in
    if pinned p then st
    else
      let mouseDirection := getMouseEnterDirection e (target e) in
      if is_direction mouseDirection bottom then slideUpIn p st
      else if is_direction mouseDirection top then slideDownIn p st
      else if is_direction mouseDirection left then slideLeftIn p st
      else if is_direction mouseDirection right then slideRightIn p st
      else st.

Definition handleMouseLeave (p : Props) (e : MouseEvent) (st : State) : State :=
  if negb (hovered st) then st
  else
    let st := setHovered false st in
    if pinned p then st
    else
      let mouseDirection := getMouseEnterDirection e (target e) in
      if is_direction mouseDirection bottom then slideDownOut p st
      else if is_direction mouseDirection top then slideUpOut p st
      else if is_direction mouseDirection left then slideLeftOut p st
      else if is_direction mouseDirection right then slideRightOut p st
      else st.

(** The two listeners the effect puts on the parent element
    (lines 489-490), run on a sequence of pointer events. *)
Definition step (p : Props) (st : State) (ev : PointerEvent) : State :=
  match ev with
  | Enter e => handleMouseEnter p e st
  | Leave e => handleMouseLeave p e st
  end.

Definition run (p : Props) (evs : list PointerEvent) (st : State) : State :=
  fold_left (step p) evs st.

End Hook.

(** ** The tables of the specification *)

(** The five named windows and nine named shapes (section 3). *)
Inductive Window : Type :=
| center | topOffset | bottomOffset | leftOffset | rightOffset.

Inductive Shape : Type :=
| square
| concaveTop | concaveRight | concaveBottom | concaveLeft
| convexTop | convexBottom | convexLeft | convexRight.

(** The table of section 4.2: start window, end window and path of each
    transition. *)
Definition transitionTable (t : Transition) : Window * Window * Shape :=
  match t with
  | SlideDownOut => (center, bottomOffset, concaveTop)
  | SlideUpIn => (bottomOffset, center, convexTop)
  | SlideUpOut => (center, topOffset, concaveBottom)
  | SlideDownIn => (topOffset, center, convexBottom)
  | SlideLeftIn => (leftOffset, center, convexRight)
  | SlideRightIn => (rightOffset, center, convexLeft)
  | SlideLeftOut => (center, leftOffset, concaveRight)
  | SlideRightOut => (center, rightOffset, concaveLeft)
  end.

(** The constant of the source each name of the table stands for. *)
Definition windowString (w : Window) : string :=
  match w with
  | center => Wrapper.vbCenter
  | topOffset => Wrapper.vbTop
  | bottomOffset => Wrapper.vbBottom
  | leftOffset => Wrapper.vbLeft
  | rightOffset => Wrapper.vbRight
  end.

Definition shapeString (s : Shape) : string :=
  match s with
  | square => Wrapper.squarePath
  | concaveTop => Wrapper.concaveTopPath
  | concaveRight => Wrapper.concaveRightPath
  | concaveBottom => Wrapper.concaveBottomPath
  | concaveLeft => Wrapper.concaveLeftPath
  | convexTop => Wrapper.convexTopPath
  | convexBottom => Wrapper.convexBottomPath
  | convexLeft => Wrapper.convexLeftPath
  | convexRight => Wrapper.convexRightPath
  end.

Definition tableArguments (t : Transition) : string * string * string :=
  let '(a, b, s) := transitionTable t in
  (windowString a, windowString b, shapeString s).

(** The dispatch of section 4.3 without inversion: bottom to slide up,
    top to slide down, left to slide left, right to slide right, for the
    entry and for the mirrored exit. *)
Definition enterTransition (dir : Direction) : Transition :=
  match dir with
  | bottom => SlideUpIn
  | top => SlideDownIn
  | left => SlideLeftIn
  | right => SlideRightIn
  end.

Definition leaveTransition (dir : Direction) : Transition :=
  match dir with
  | bottom => SlideDownOut
  | top => SlideUpOut
  | left => SlideLeftOut
  | right => SlideRightOut
  end.

(** The wrapper's props with the invert-direction flag replaced. *)
Definition withInvert (b : bool) (p : Wrapper.Props) : Wrapper.Props :=
  Wrapper.mkProps (Wrapper.fillColor p) (Wrapper.fillOpacity p)
    (Wrapper.fillDuration p) (Wrapper.fillPin p) (Wrapper.fillInvertColors p)
    (Wrapper.fillOnTab p) (Wrapper.fillTabEnter p) (Wrapper.fillTabLeave p)
    b (Wrapper.fillZ p).

(** The wrapper's props with the two tab directions replaced. *)
Definition withTabDirections (enter leave : Tab.Direction) (p : Wrapper.Props)
  : Wrapper.Props :=
  Wrapper.mkProps (Wrapper.fillColor p) (Wrapper.fillOpacity p)
    (Wrapper.fillDuration p) (Wrapper.fillPin p) (Wrapper.fillInvertColors p)
    (Wrapper.fillOnTab p) enter leave
    (Wrapper.fillInvert p) (Wrapper.fillZ p).

(** The driver calls of a state, reduced to their arguments. *)
Definition wrapperCalls (st : Wrapper.State) : list (string * string * string) :=
  List.map arguments (Wrapper.animations st).

Definition hookCalls (st : Hook.State) : list (string * string * string) :=
  List.map arguments (Hook.animations st).

(** Every event of the sequence has a detected direction. *)
Definition directed (evs : list PointerEvent) : bool :=
  forallb (fun ev =>
             match getMouseEnterDirection (mouseEvent ev)
                                          (target (mouseEvent ev)) with
             | Some _ => true
             | None => false
             end) evs.

(** The four distances, in the order [Math.min] receives them. *)
Definition distances (e : MouseEvent) (el : HTMLElement) : list JS.number :=
  [topEdgeDistance e el; bottomEdgeDistance e el;
   leftEdgeDistance e el; rightEdgeDistance e el].

(** The child [c] of a timeline drives attribute [name] of [n] to [v], as
    a [k], for [dur] seconds from time [t] on. *)
Definition drives (c : Gsap.Child) (k : Gsap.Kind) (n : Gsap.Target)
  (name v : string) (dur t : Q) : Prop :=
  Gsap.kind c = k /\ Gsap.node c = n /\ Gsap.attr c = name
  /\ Gsap.value c = v /\ Gsap.duration c = dur /\ (Gsap.startTime c == t)%Q.

(** The control points of the segments of a path string, in order: the
    top, right, bottom and left edge of the shapes of the source. *)
Definition controlPoints (s : string) : option (list Svg.Point) :=
  option_map (fun p => List.map Svg.control (Svg.quads p)) (Svg.parsePath s).

(** The window [0 0 100 100]. *)
Definition centerWindow : Svg.ViewBox := Svg.mkViewBox 0 0 100 100.

(** A pointer just below the top edge of [box], and one on its left edge. *)
Definition fromTop : MouseEvent := pointerAt 100 11 box.
Definition fromLeft : MouseEvent := pointerAt 20 30 box.

(** A pointer whose [clientY] is NaN. *)
Definition fromNowhere : MouseEvent := mkMouseEvent (JS.of_Z 0) JS.NaN box.

(** The states of the two variants agree on what can be observed of both:
    the filled flag and the arguments of the driver calls. *)
Definition agree (ws : Wrapper.State) (hs : Hook.State) : Prop :=
  Wrapper.isFilled ws = Hook.hovered hs /\ wrapperCalls ws = hookCalls hs.

(** The direction the detector finds for a pointer event. *)
Definition detected (ev : PointerEvent) : option Direction :=
  getMouseEnterDirection (mouseEvent ev) (target (mouseEvent ev)).

(** The event the wrapper's handler receives and the event the hook's
    listener receives are of the same kind and are detected alike, with a
    direction.  The two components do not see the same [target]: React
    gives the wrapper the innermost element entered, the listener on the
    parent gets the parent. *)
Definition alike (forWrapper forHook : PointerEvent) : bool :=
  match forWrapper, forHook with
  | Enter _, Enter _ | Leave _, Leave _ =>
      match detected forWrapper, detected forHook with
      | Some a, Some b => Direction_eqb a b
      | _, _ => false
      end
  | _, _ => false
  end.

Fixpoint allAlike (forWrapper forHook : list PointerEvent) : bool :=
  match forWrapper, forHook with
  | [], [] => true
  | w :: ws, h :: hs => alike w h && allAlike ws hs
  | _, _ => false
  end.

(** The wrapper at mount with its default props, and rendered filled. *)
Definition emptyMount : Wrapper.State := Wrapper.mount Wrapper.defaultProps.

Definition filledMount : Wrapper.State :=
  Wrapper.withIsFilled true (Wrapper.mount Wrapper.defaultProps).

(** An element inside [box], at its top left corner, and the pointer at
    one place as the two components receive it: the wrapper with the inner
    element as target, the hook's listener with [box]. *)
Definition inner : HTMLElement := elementAt 10 30 20 120.

Definition atInner : MouseEvent := pointerAt 118 20 inner.
Definition atBox : MouseEvent := pointerAt 118 20 box.

(** ** The forwarded ref (source lines 117-130) *)

Module Ref.

(** What [forwardedRef] can be: a function, an object with a [current]
    field, or [null]. *)
Inductive ForwardedRef : Type := function | object | null.

(** [containerRef.current], the [current] field of an object ref, and the
    arguments a function ref has been called with. *)
Record Refs : Type := mkRefs {
  containerRef : option HTMLElement;
  forwardedCurrent : option HTMLElement;
  forwardedCalls : list HTMLElement
}.

(** [syncForwardedRef(el)]; the element is [None] when React passes
    [null]. *)
Definition syncForwardedRef (forwardedRef : ForwardedRef)
  (el : option HTMLElement) (r : Refs) : Refs :=
  match el with
  | None => r
  | Some x =>
      match forwardedRef with
      | function =>
          mkRefs (Some x) (forwardedCurrent r) (forwardedCalls r ++ [x])
      | object => mkRefs (Some x) (Some x) (forwardedCalls r)
      | null => mkRefs (Some x) (forwardedCurrent r) (forwardedCalls r)
      end
  end.

(** The ref callback called once per element of [els], in order. *)
Definition syncAll (forwardedRef : ForwardedRef)
  (els : list (option HTMLElement)) (r : Refs) : Refs :=
  fold_left (fun r el => syncForwardedRef forwardedRef el r) els r.

(** The elements of [els] that are not [null]. *)
Definition attached (els : list (option HTMLElement)) : list HTMLElement :=
  omap id els.

End Ref.

(** ** Events on the wrapper's host element (source lines 267-273) *)

Module Host.

Inductive Event : Type :=
| mouseenter (e : MouseEvent)
| mouseleave (e : MouseEvent)
| focus
| blur.

(** The prop React calls for an event. *)
Definition propName (ev : Event) : string :=
  match ev with
  | mouseenter _ => "onMouseEnter"
  | mouseleave _ => "onMouseLeave"
  | focus => "onFocus"
  | blur => "onBlur"
  end.

(** Calling the value found under the prop: one of the component's
    handlers changes its state, anything else leaves it alone. *)
Definition invoke (p : Wrapper.Props) (v : Wrapper.PropValue) (ev : Event)
  (st : Wrapper.State) : Wrapper.State :=
  match v, ev with
  | Wrapper.HandleMouseEnter, mouseenter e => Wrapper.handleMouseEnter p e st
  | Wrapper.HandleMouseLeave, mouseleave e => Wrapper.handleMouseLeave p e st
  | Wrapper.HandleFocus, focus => Wrapper.handleFocus p st
  | Wrapper.HandleBlur, blur => Wrapper.handleBlur p st
  | _, _ => st
  end.

(** An event on the host element rendered with the caller's [props]. *)
Definition fire (p : Wrapper.Props) (props : gmap string Wrapper.PropValue)
  (st : Wrapper.State) (ev : Event) : Wrapper.State :=
  match Wrapper.hostProps p props !! propName ev with
  | Some v => invoke p v ev st
  | None => st
  end.

(** What happens to the mounted host: an event is dispatched to the
    props of the latest render, or React re-renders. *)
Inductive Step : Type :=
| dispatch (ev : Event)
| rerender.

Definition step (p : Wrapper.Props) (props : gmap string Wrapper.PropValue)
  (st : Wrapper.State) (s : Step) : Wrapper.State :=
  match s with
  | dispatch ev => fire p props st ev
  | rerender => Wrapper.render st
  end.

Definition fireAll (p : Wrapper.Props) (props : gmap string Wrapper.PropValue)
  (steps : list Step) (st : Wrapper.State) : Wrapper.State :=
  fold_left (step p props) steps st.

(** Each event followed by a re-render before the next one arrives. *)
Definition renderedAfterEach (evs : list Event) : list Step :=
  flat_map (fun ev => [dispatch ev; rerender]) evs.

(** The component's own handler for an event. *)
Definition ownHandler (ev : Event) : Wrapper.PropValue :=
  match ev with
  | mouseenter _ => Wrapper.HandleMouseEnter
  | mouseleave _ => Wrapper.HandleMouseLeave
  | focus => Wrapper.HandleFocus
  | blur => Wrapper.HandleBlur
  end.

(** The events that fill (enter, focus) as opposed to those that empty
    (leave, blur). *)
Definition fills (ev : Event) : bool :=
  match ev with
  | mouseenter _ | focus => true
  | mouseleave _ | blur => false
  end.

End Host.

(** The last driver call slides the overlay in: it ends at the center
    window.  False when there was no call. *)
Definition slidIn (calls : list AnimationCall) : bool :=
  match last calls with
  | Some c => String.eqb (vbTo c) Wrapper.vbCenter
  | None => false
  end.

(** A call that starts or ends at the center window, not both. *)
Definition inOrOut (c : AnimationCall) : bool :=
  xorb (String.eqb (vbFrom c) Wrapper.vbCenter)
       (String.eqb (vbTo c) Wrapper.vbCenter).

(** ** The listeners of the hook variant (source lines 391-495) *)

Module Effect.

Inductive EventType : Type := mouseenter | mouseleave.

Definition EventType_eqb (a b : EventType) : bool :=
  match a, b with
  | mouseenter, mouseenter | mouseleave, mouseleave => true
  | _, _ => false
  end.

(** A function registered as a listener.  Each run of the effect creates
    its two handlers anew: [run] numbers the run that created the function
    and [p] is the props its closure captured.  [foreign] is a function of
    somebody else. *)
Inductive Callback : Type :=
| handleMouseEnter (run : nat) (p : Hook.Props)
| handleMouseLeave (run : nat) (p : Hook.Props)
| foreign (id : nat).

(** Identity of function objects. *)
Definition sameFunction (a b : Callback) : bool :=
  match a, b with
  | handleMouseEnter n _, handleMouseEnter m _ => Nat.eqb n m
  | handleMouseLeave n _, handleMouseLeave m _ => Nat.eqb n m
  | foreign i, foreign j => Nat.eqb i j
  | _, _ => false
  end.

Definition Listener : Type := (EventType * Callback)%type.

Definition sameListener (a b : Listener) : bool :=
  EventType_eqb a.1 b.1 && sameFunction a.2 b.2.

(** [addEventListener]: a listener already present is not added again. *)
Definition addEventListener (l : Listener) (ls : list Listener)
  : list Listener :=
  if existsb (sameListener l) ls then ls else ls ++ [l].

(** [removeEventListener]: the matching listener, if any, is removed. *)
Fixpoint removeEventListener (l : Listener) (ls : list Listener)
  : list Listener :=
  match ls with
  | [] => []
  | x :: ls' =>
      if sameListener l x then ls' else x :: removeEventListener l ls'
  end.

(** A mounted component.  [listeners] is the listener list of the svg's
    parent element, [None] when the svg has no parent; [subscription] is
    the pending cleanup of the effect, with the run and the props its
    handlers belong to; [renderedViewBox] is the [viewBox] prop of the last
    render. *)
Record Instance : Type := mkInstance {
  props : Hook.Props;
  cell : Hook.State;
  renderedViewBox : string;
  listeners : option (list Listener);
  subscription : option (nat * Hook.Props);
  runs : nat
}.

(** The body of the effect (lines 392-490) for the props [p] of the
    current render.  The svg and the path are rendered unconditionally, so
    both refs are set when an effect runs; without a parent the effect
    returns early and leaves no cleanup. *)
Definition subscribe (p : Hook.Props) (i : Instance) : Instance :=
  match listeners i with
  | None =>
      mkInstance (props i) (cell i) (renderedViewBox i) None None
        (S (runs i))
  | Some ls =>
      mkInstance (props i) (cell i) (renderedViewBox i)
        (Some (addEventListener (mouseleave, handleMouseLeave (runs i) p)
                 (addEventListener (mouseenter, handleMouseEnter (runs i) p)
                    ls)))
        (Some (runs i, p)) (S (runs i))
  end.

(** The function the effect returned (lines 491-494). *)
Definition cleanup (i : Instance) : Instance :=
  match subscription i, listeners i with
  | Some (n, p), Some ls =>
      mkInstance (props i) (cell i) (renderedViewBox i)
        (Some (removeEventListener (mouseleave, handleMouseLeave n p)
                 (removeEventListener (mouseenter, handleMouseEnter n p) ls)))
        None (runs i)
  | _, _ => i
  end.

(** First render and first run of the effect. *)
Definition mount (p : Hook.Props) (parent : option (list Listener))
  : Instance :=
  subscribe p
    (mkInstance p (Hook.mount p) (Hook.vbInit p false) parent None 0).

(** A later render with props [p']: React writes the [viewBox] attribute
    when its prop differs from the one of the previous render, and runs
    the cleanup and the effect again when the dependency [pinned]
    changed. *)
Definition rerender (i : Instance) (p' : Hook.Props) : Instance :=
  let vb := Hook.vbInit p' (Hook.hovered (cell i)) in
  let cell' :=
    if String.eqb vb (renderedViewBox i) then cell i
    else Hook.mkState (Hook.hovered (cell i)) (mkDOM vb (d (Hook.dom (cell i))))
           (Hook.animations (cell i)) in
  let i' :=
    mkInstance p' cell' vb (listeners i) (subscription i) (runs i) in
  if Bool.eqb (Hook.pinned p') (Hook.pinned (props i)) then i'
  else subscribe p' (cleanup i').

Definition rerenderAll (ps : list Hook.Props) (i : Instance) : Instance :=
  fold_left rerender ps i.

(** Unmounting runs the pending cleanup; what remains is the parent's
    listener list. *)
Definition unmount (i : Instance) : option (list Listener) :=
  listeners (cleanup i).

Definition eventType (ev : PointerEvent) : EventType :=
  match ev with Enter _ => mouseenter | Leave _ => mouseleave end.

(** Calling a listener: a handler of the component runs with the props it
    captured, a foreign function does not touch the component. *)
Definition invoke (cb : Callback) (ev : PointerEvent) (st : Hook.State)
  : Hook.State :=
  match cb, ev with
  | handleMouseEnter _ p, Enter e => Hook.handleMouseEnter p e st
  | handleMouseLeave _ p, Leave e => Hook.handleMouseLeave p e st
  | _, _ => st
  end.

(** The parent element dispatches an event: its listeners of that type
    are called in the order they were added. *)
Definition dispatch (ev : PointerEvent) (i : Instance) : Hook.State :=
  fold_left
    (fun st l => if EventType_eqb l.1 (eventType ev) then invoke l.2 ev st
                 else st)
    (default [] (listeners i)) (cell i).

Definition isForeign (l : Listener) : bool :=
  match l.2 with foreign _ => true | _ => false end.

End Effect.

(** A props record of the hook variant with the given duration, not pinned. *)
Definition hookWithDuration (dur : Q) : Hook.Props :=
  Hook.mkProps "white" 1 dur false false None.

(** The wrapper's default props, pinned. *)
Definition pinnedProps : Wrapper.Props :=
  Wrapper.mkProps "white" 1 (1 # 2) true false false Tab.up Tab.down false
    (Some (-1)).

(** A call that slides the overlay in, or out. *)
Definition slidesIn (c : AnimationCall) : bool :=
  String.eqb (vbTo c) Wrapper.vbCenter
  && negb (String.eqb (vbFrom c) Wrapper.vbCenter).

Definition slidesOut (c : AnimationCall) : bool :=
  String.eqb (vbFrom c) Wrapper.vbCenter
  && negb (String.eqb (vbTo c) Wrapper.vbCenter).

(** The calls slide in and out in turn; [inNext] tells whether the first
    of them has to slide in. *)
Fixpoint alternates (inNext : bool) (calls : list AnimationCall) : bool :=
  match calls with
  | [] => true
  | c :: calls' =>
      (if inNext then slidesIn c else slidesOut c)
      && alternates (negb inNext) calls'
  end.

(** The wrapper between events, when every update has been rendered: the
    calls so far alternate from a slide in on, and the flag is on exactly
    after a slide in. *)
Definition inStep (st : Wrapper.State) : Prop :=
  Wrapper.pending st = None
  /\ alternates true (Wrapper.animations st) = true
  /\ Wrapper.isFilled st = Nat.odd (length (Wrapper.animations st))
  /\ Wrapper.isFilled st = slidIn (Wrapper.animations st).

(** The same for the hook variant. *)
Definition hookInStep (st : Hook.State) : Prop :=
  Hook.hovered st = slidIn (Hook.animations st)
  /\ forallb inOrOut (Hook.animations st) = true.

(** The two listeners one run of the effect adds. *)
Definition ownListeners (n : nat) (q : Hook.Props) : list Effect.Listener :=
  [(Effect.mouseenter, Effect.handleMouseEnter n q);
   (Effect.mouseleave, Effect.handleMouseLeave n q)].

(** The instance is subscribed by run [n] with props [q] on a parent whose
    other listeners are [ls]. *)
Definition subscribedTo (ls : list Effect.Listener) (n : nat) (q : Hook.Props)
  (i : Effect.Instance) : Prop :=
  Effect.subscription i = Some (n, q)
  /\ Effect.listeners i = Some (ls ++ ownListeners n q)
  /\ Hook.pinned q = Hook.pinned (Effect.props i).

(** Some listeners of somebody else. *)
Definition foreignListeners : list Effect.Listener :=
  [(Effect.mouseenter, Effect.foreign 0); (Effect.mouseleave, Effect.foreign 1)].

(** On which side of the window a viewBox shows the path lies, when all
    of it lies on one side.  The y axis of SVG points down: above means
    smaller [y]. *)
Definition sideOfWindow (vb : Svg.ViewBox) (p : Svg.Path) : option Direction :=
  if forallb (fun pt => snd pt <? Svg.minY vb) (Svg.points p) then Some top
  else if forallb (fun pt => Svg.minY vb + Svg.height vb <? snd pt)
            (Svg.points p) then Some bottom
  else if forallb (fun pt => fst pt <? Svg.minX vb) (Svg.points p)
  then Some left
  else if forallb (fun pt => Svg.minX vb + Svg.width vb <? fst pt)
            (Svg.points p) then Some right
  else None.

(** The side on which the window given as a string leaves the square. *)
Definition squareSide (window : string) : option Direction :=
  match Svg.parseViewBox window, Svg.parsePath Wrapper.squarePath with
  | Some vb, Some sq => sideOfWindow vb sq
  | _, _ => None
  end.

(** The props of the latest render: the last of [ps], or [p] when there
    was no re-render. *)
Definition latestProps (p : Hook.Props) (ps : list Hook.Props) : Hook.Props :=
  default p (last ps).

(** Between events: the attributes are those of the last render and
    nothing has been hovered or animated. *)
Definition asRendered (i : Effect.Instance) : Prop :=
  viewBox (Hook.dom (Effect.cell i)) = Effect.renderedViewBox i
  /\ Effect.renderedViewBox i = Hook.vbInit (Effect.props i) false
  /\ d (Hook.dom (Effect.cell i)) = Some Hook.squarePath
  /\ Hook.hovered (Effect.cell i) = false
  /\ Hook.animations (Effect.cell i) = [].

(** The wrapper's default props with the tab animation on, and pinned
    besides. *)
Definition tabProps : Wrapper.Props :=
  Wrapper.mkProps "white" 1 (1 # 2) false false true Tab.up Tab.down false
    (Some (-1)).



(** A pointer event as an event on the wrapper's host element. *)
Definition onHost (ev : PointerEvent) : Host.Event :=
  match ev with
  | Enter e => Host.mouseenter e
  | Leave e => Host.mouseleave e
  end.

(** The wrapper's host receives the events one by one and React re-renders
    after each. *)
Definition hostTrace (evs : list PointerEvent) : list Host.Step :=
  Host.renderedAfterEach (List.map onHost evs).
(** * Properties *)

(** ** Order of JavaScript numbers *)

Section NumberOrder.

Local Ltac cases_compare :=
  repeat match goal with
    | H : context [Z.compare ?a ?b] |- _ => destruct (Z.compare_spec a b)
    | |- context [Z.compare ?a ?b] => destruct (Z.compare_spec a b)
    | H : context [Pos.compare_cont Eq ?a ?b] |- _ =>
        change (Pos.compare_cont Eq a b) with (Pos.compare a b) in H;
        destruct (Pos.compare_spec a b)
    | |- context [Pos.compare_cont Eq ?a ?b] =>
        change (Pos.compare_cont Eq a b) with (Pos.compare a b);
        destruct (Pos.compare_spec a b)
    end.

Local Ltac by_cases :=
  unfold JS.le, JS.lt, JS.strict_eq, SFleb, SFltb, SFeqb, SFcompare;
  intros;
  cases_compare; simpl in *; subst;
  try reflexivity; try discriminate; try lia.

Lemma strict_eq_refl (x : JS.number) :
  JS.isNaN x = false -> JS.strict_eq x x = true.
Proof. destruct x as [[]|[]| |[] ? ?]; by_cases. Qed.

Lemma lt_le (x y : JS.number) : JS.lt x y = true -> JS.le x y = true.
Proof. destruct x as [[]|[]| |[] ? ?], y as [[]|[]| |[] ? ?]; by_cases. Qed.

Lemma not_lt_le (x y : JS.number) :
  JS.isNaN x = false -> JS.isNaN y = false ->
  JS.lt x y = false -> JS.le y x = true.
Proof. destruct x as [[]|[]| |[] ? ?], y as [[]|[]| |[] ? ?]; by_cases. Qed.

Lemma strict_eq_le (x y : JS.number) :
  JS.strict_eq x y = true -> JS.le x y = true /\ JS.le y x = true.
Proof.
  destruct x as [[]|[]| |[] ? ?], y as [[]|[]| |[] ? ?]; by_cases; auto.
Qed.

Lemma le_not_eq_lt (x y : JS.number) :
  JS.le x y = true -> JS.strict_eq x y = false -> JS.lt x y = true.
Proof. destruct x as [[]|[]| |[] ? ?], y as [[]|[]| |[] ? ?]; by_cases. Qed.

Lemma le_trans (x y z : JS.number) :
  JS.le x y = true -> JS.le y z = true -> JS.le x z = true.
Proof.
  destruct x as [[]|[]| |[] ? ?], y as [[]|[]| |[] ? ?],
           z as [[]|[]| |[] ? ?]; by_cases.
Qed.

Lemma le_lt_trans (x y z : JS.number) :
  JS.le x y = true -> JS.lt y z = true -> JS.lt x z = true.
Proof.
  destruct x as [[]|[]| |[] ? ?], y as [[]|[]| |[] ? ?],
           z as [[]|[]| |[] ? ?]; by_cases.
Qed.

Lemma Infinity_le (x : JS.number) :
  JS.le JS.Infinity x = true -> JS.strict_eq JS.Infinity x = true.
Proof. destruct x as [[]|[]| |[] ? ?]; by_cases. Qed.

End NumberOrder.

Lemma lt_not_le (x y : JS.number) :
  JS.lt x y = true -> JS.le y x = true -> False.
Proof.
  unfold JS.lt, JS.le, SFltb, SFleb, SFcompare.
  destruct x as [[]|[]| |[] mx ex], y as [[]|[]| |[] my ey];
    try discriminate;
    try (destruct (Z.compare_spec ex ey), (Z.compare_spec ey ex);
         try discriminate; try lia; subst;
         change (Pos.compare_cont Eq mx my) with (Pos.compare mx my);
         change (Pos.compare_cont Eq my mx) with (Pos.compare my mx);
         destruct (Pos.compare_spec mx my), (Pos.compare_spec my mx);
         cbn; try discriminate; lia).
Qed.

(** ** [Math.min] *)

Lemma min_step_cases (lowest n : JS.number) :
  JS.isNaN lowest = false -> JS.isNaN n = false ->
  let m := JS.min_step lowest n in
  (m = lowest \/ m = n) /\ JS.le m lowest = true /\ JS.le m n = true.
Proof.
  intros Hl Hn. unfold JS.min_step.
  destruct (JS.is_neg_zero n && JS.is_pos_zero lowest) eqn:Hz.
  - apply andb_prop in Hz as [Hz1 Hz2].
    destruct n as [[]|[]| |[] ? ?]; try discriminate.
    destruct lowest as [[]|[]| |[] ? ?]; try discriminate.
    cbn. auto.
  - destruct (JS.lt n lowest) eqn:Hlt; cbn.
    + split; [auto|]. split; [by apply lt_le|].
      apply strict_eq_le, strict_eq_refl, Hn.
    + split; [auto|]. split; [|by apply not_lt_le].
      apply strict_eq_le, strict_eq_refl, Hl.
Qed.

Lemma fold_min_step (l : list JS.number) : forall acc,
  JS.isNaN acc = false -> existsb JS.isNaN l = false ->
  let m := fold_left JS.min_step l acc in
  (m = acc \/ In m l) /\ JS.le m acc = true
  /\ (forall x, In x l -> JS.le m x = true).
Proof.
  induction l as [|n l IH]; intros acc Hacc Hl; cbn -[JS.min_step].
  - split; [auto|]. split; [|intros ? []].
    apply strict_eq_le, strict_eq_refl, Hacc.
  - cbn in Hl. apply orb_false_elim in Hl as [Hn Hl].
    destruct (min_step_cases acc n Hacc Hn) as (Hm & Hma & Hmn).
    assert (Hnan : JS.isNaN (JS.min_step acc n) = false)
      by (destruct Hm as [-> | ->]; assumption).
    destruct (IH _ Hnan Hl) as (Hin & Hle & Hall).
    split; [|split].
    + destruct Hin as [-> | Hin]; [|auto].
      destruct Hm as [-> | ->]; auto.
    + eapply le_trans; eassumption.
    + intros x [<- | Hx]; [eapply le_trans; eassumption | auto].
Qed.

(** Without NaN among its arguments, [Math.min] is below every argument
    and [===] to one of them. *)
Lemma Math_min_spec (l : list JS.number) :
  l <> [] -> existsb JS.isNaN l = false ->
  (forall x, In x l -> JS.le (JS.Math_min l) x = true)
  /\ exists x, In x l /\ JS.strict_eq (JS.Math_min l) x = true.
Proof.
  intros Hne Hl. unfold JS.Math_min. rewrite Hl.
  destruct (fold_min_step l JS.Infinity eq_refl Hl) as (Hin & _ & Hall).
  split; [exact Hall|].
  destruct Hin as [Heq | Hin].
  - destruct l as [|x l]; [congruence|].
    exists x. split; [by left|].
    cbn zeta in Heq. rewrite Heq. apply Infinity_le.
    rewrite <- Heq. apply Hall. by left.
  - eexists. split; [exact Hin|].
    apply strict_eq_refl.
    destruct (existsb_exists JS.isNaN l) as [_ Hex].
    destruct (JS.isNaN (fold_left JS.min_step l JS.Infinity)) eqn:E; [|done].
    rewrite Hex in Hl; [done|]. eexists; split; [exact Hin|exact E].
Qed.

Lemma Math_min_nan (l : list JS.number) :
  existsb JS.isNaN l = true -> JS.Math_min l = JS.NaN.
Proof. intros H. unfold JS.Math_min. by rewrite H. Qed.

(** ** Subtraction of finite numbers is never NaN *)

Lemma shr_1_nonneg (mrs : shr_record) :
  0 <= shr_m mrs -> 0 <= shr_m (shr_1 mrs).
Proof.
  destruct mrs as [m r s]. cbn.
  destruct m as [|[p|p|]|[p|p|]]; cbn; lia.
Qed.

Lemma iter_pos_invariant {A : Type} (P : A -> Prop) (f : A -> A) :
  (forall x, P x -> P (f x)) ->
  forall n x, P x -> P (SpecFloat.iter_pos f n x).
Proof.
  intros Hf. induction n as [n IH|n IH|]; intros x Hx; cbn; auto.
Qed.

Lemma shr_fexp_nonneg (m e : Z) (l : location) :
  0 <= m -> 0 <= shr_m (fst (shr_fexp JS.prec JS.emax m e l)).
Proof.
  intros Hm. unfold shr_fexp, shr.
  assert (H0 : 0 <= shr_m (shr_record_of_loc m l))
    by (destruct l as [|[]]; cbn; exact Hm).
  destruct (_ - e); cbn; try exact H0.
  apply (iter_pos_invariant (fun r => 0 <= shr_m r)); [apply shr_1_nonneg|exact H0].
Qed.

Lemma round_nearest_even_nonneg (m : Z) (l : location) :
  0 <= m -> 0 <= round_nearest_even m l.
Proof.
  intros Hm. unfold round_nearest_even.
  destruct l as [|[]]; try destruct (Z.even m); lia.
Qed.

Lemma binary_round_aux_not_nan (sx : bool) (m e : Z) (l : location) :
  0 <= m -> JS.isNaN (binary_round_aux JS.prec JS.emax sx m e l) = false.
Proof.
  intros Hm. unfold binary_round_aux.
  pose proof (shr_fexp_nonneg m e l Hm) as H1.
  destruct (shr_fexp JS.prec JS.emax m e l) as [mrs' e'] eqn:E1. cbn in H1.
  pose proof (shr_fexp_nonneg _ e' loc_Exact
                (round_nearest_even_nonneg _ (loc_of_shr_record mrs') H1)) as H2.
  destruct (shr_fexp JS.prec JS.emax _ e' loc_Exact) as [mrs'' e''] eqn:E2.
  cbn in H2.
  destruct (shr_m mrs'') as [|q|q]; [reflexivity| |lia].
  destruct (e'' <=? _); reflexivity.
Qed.

Lemma binary_normalize_not_nan (m e : Z) (szero : bool) :
  JS.isNaN (binary_normalize JS.prec JS.emax m e szero) = false.
Proof.
  unfold binary_normalize, binary_round.
  destruct m as [|p|p]; [reflexivity| |];
    destruct (shl_align _ _ _) as [mz ez];
    apply binary_round_aux_not_nan; lia.
Qed.

Lemma sub_finite_not_nan (x y : JS.number) :
  JS.isFinite x = true -> JS.isFinite y = true ->
  JS.isNaN (JS.Math_abs (JS.sub x y)) = false.
Proof.
  intros Hx Hy.
  assert (H : JS.isNaN (JS.sub x y) = false).
  { unfold JS.sub, SFsub.
    destruct x as [[]|[]| |sx mx ex], y as [[]|[]| |sy my ey];
      try discriminate; try reflexivity;
      apply binary_normalize_not_nan. }
  destruct (JS.sub x y); done.
Qed.

(** ** The edge-direction detector *)

Lemma distances_nan (e : MouseEvent) (el : HTMLElement) :
  existsb JS.isNaN (distances e el) = someDistanceNaN e el.
Proof.
  unfold someDistanceNaN, distances. cbn.
  destruct (JS.isNaN (topEdgeDistance e el)),
    (JS.isNaN (bottomEdgeDistance e el)),
    (JS.isNaN (leftEdgeDistance e el)),
    (JS.isNaN (rightEdgeDistance e el)); reflexivity.
Qed.

Lemma edgeDistance_in (e : MouseEvent) (el : HTMLElement) (dir : Direction) :
  In (edgeDistance e el dir) (distances e el).
Proof. destruct dir; cbn; auto. Qed.

Lemma in_distances (e : MouseEvent) (el : HTMLElement) (x : JS.number) :
  In x (distances e el) -> exists dir, x = edgeDistance e el dir.
Proof.
  cbn. intros [<-|[<-|[<-|[<-|[]]]]];
    [by exists top | by exists bottom | by exists left | by exists right].
Qed.

Lemma finite_distances (e : MouseEvent) (el : HTMLElement) :
  finiteInput e el = true -> someDistanceNaN e el = false.
Proof.
  unfold finiteInput, someDistanceNaN. intros H.
  repeat (apply andb_prop in H as [H ?]).
  unfold topEdgeDistance, bottomEdgeDistance, leftEdgeDistance,
    rightEdgeDistance.
  rewrite !sub_finite_not_nan by assumption. reflexivity.
Qed.

(** The detector tries the directions in the order of their priority and
    answers the first whose distance is [===] to the minimum. *)
Lemma detector_first_match (e : MouseEvent) (el : HTMLElement) :
  let min := JS.Math_min (distances e el) in
  match getMouseEnterDirection e el with
  | Some dir =>
      JS.strict_eq min (edgeDistance e el dir) = true
      /\ forall other, (priority other < priority dir)%nat ->
                       JS.strict_eq min (edgeDistance e el other) = false
  | None => forall other, JS.strict_eq min (edgeDistance e el other) = false
  end.
Proof.
  unfold getMouseEnterDirection. fold (distances e el).
  set (m := JS.Math_min (distances e el)). cbn zeta.
  destruct (JS.strict_eq m (topEdgeDistance e el)) eqn:Ht.
  { split; [exact Ht|]. intros []; cbn; lia. }
  destruct (JS.strict_eq m (bottomEdgeDistance e el)) eqn:Hb.
  { split; [exact Hb|]. intros []; cbn; solve [lia | auto]. }
  destruct (JS.strict_eq m (leftEdgeDistance e el)) eqn:Hl.
  { split; [exact Hl|]. intros []; cbn; solve [lia | auto]. }
  destruct (JS.strict_eq m (rightEdgeDistance e el)) eqn:Hr.
  { split; [exact Hr|]. intros []; cbn; solve [lia | auto]. }
  intros []; assumption.
Qed.

(** With no NaN among the distances the detector answers the direction
    of a least distance, and every direction tried before it is strictly
    farther. *)
Lemma detector_defined (e : MouseEvent) (el : HTMLElement) :
  someDistanceNaN e el = false ->
  exists dir,
    getMouseEnterDirection e el = Some dir
    /\ JS.strict_eq (JS.Math_min (distances e el)) (edgeDistance e el dir) = true
    /\ (forall other,
           JS.le (edgeDistance e el dir) (edgeDistance e el other) = true)
    /\ (forall other, (priority other < priority dir)%nat ->
           JS.lt (edgeDistance e el dir) (edgeDistance e el other) = true).
Proof.
  intros Hnan. rewrite <- distances_nan in Hnan.
  destruct (Math_min_spec (distances e el)) as (Hall & x & Hx & Heq);
    [discriminate | exact Hnan |].
  pose proof (detector_first_match e el) as Hd. cbn zeta in Hd.
  destruct (getMouseEnterDirection e el) as [dir|].
  - destruct Hd as [Hm Hbefore]. exists dir.
    apply strict_eq_le in Hm as Hm'. destruct Hm' as [_ Hdm].
    split; [reflexivity|]. split; [exact Hm|]. split.
    + intros other. eapply le_trans; [exact Hdm|].
      apply Hall, edgeDistance_in.
    + intros other Hlt. eapply le_lt_trans; [exact Hdm|].
      apply le_not_eq_lt; [apply Hall, edgeDistance_in | by apply Hbefore].
  - apply in_distances in Hx as [dir ->]. rewrite Hd in Heq. discriminate.
Qed.

(** With a NaN among the distances the minimum is NaN, no [case] matches,
    and the detector returns [undefined]. *)
Lemma detector_undefined (e : MouseEvent) (el : HTMLElement) :
  someDistanceNaN e el = true -> getMouseEnterDirection e el = None.
Proof.
  intros Hnan. rewrite <- distances_nan in Hnan.
  unfold getMouseEnterDirection. fold (distances e el).
  rewrite (Math_min_nan _ Hnan). reflexivity.
Qed.

(** The detector on a box with edges at 10, 60 (top, bottom) and 20, 220
    (left, right). *)
Example detect_top : getMouseEnterDirection (pointerAt 100 11 box) box = Some top.
Proof. vm_compute. reflexivity. Qed.

Example detect_right : getMouseEnterDirection (pointerAt 219 30 box) box = Some right.
Proof. vm_compute. reflexivity. Qed.

Example detect_tie : getMouseEnterDirection (pointerAt 20 10 box) box = Some top.
Proof. vm_compute. reflexivity. Qed.

Example detect_nan :
  getMouseEnterDirection (mkMouseEvent (JS.of_Z 0) JS.NaN box) box = None.
Proof. vm_compute. reflexivity. Qed.




(** A pointer whose [clientY] is NaN (what an undefined coordinate
    becomes under [-]). *)
Lemma detector_NaN_counterexample :
  getMouseEnterDirection (mkMouseEvent (JS.of_Z 0) JS.NaN box) box = None
  /\ ~ exists dir,
        getMouseEnterDirection (mkMouseEvent (JS.of_Z 0) JS.NaN box) box
        = Some dir.
Proof.
  assert (H : getMouseEnterDirection (mkMouseEvent (JS.of_Z 0) JS.NaN box) box
              = None) by (vm_compute; reflexivity).
  split; [exact H|]. intros [dir Hdir]. rewrite H in Hdir. discriminate.
Qed.

(** C8 (amended).  The detector is total and raises nothing, but it
    returns a direction exactly when none of the four distances is NaN:
    then, degenerate rectangles and infinite coordinates included, the
    direction is at minimal distance and first in the order top, bottom,
    left, right.  When a distance is NaN the minimum is NaN and the result
    is [undefined]. *)
Theorem getMouseEnterDirection_total (e : MouseEvent) (el : HTMLElement) :
  match getMouseEnterDirection e el with
  | Some dir =>
      someDistanceNaN e el = false
      /\ (forall other,
             JS.le (edgeDistance e el dir) (edgeDistance e el other) = true)
      /\ (forall other, (priority other < priority dir)%nat ->
             JS.lt (edgeDistance e el dir) (edgeDistance e el other) = true)
  | None => someDistanceNaN e el = true
  end.
Proof.
  destruct (someDistanceNaN e el) eqn:Hnan.
  - rewrite (detector_undefined e el Hnan). reflexivity.
  - destruct (detector_defined e el Hnan) as (dir & -> & _ & Hle & Hlt).
    auto.
Qed.

(** A rectangle of size zero: all four distances are finite, the two
    vertical ones tie and [top] wins. *)
Example zero_size_rectangle :
  getMouseEnterDirection (pointerAt 7 3 (elementAt 5 5 5 5)) (elementAt 5 5 5 5)
  = Some top.
Proof. vm_compute. reflexivity. Qed.

(** An infinite coordinate on each side of a subtraction gives NaN. *)
Example infinite_coordinates :
  getMouseEnterDirection
    (mkMouseEvent (JS.of_Z 0) JS.Infinity box)
    (mkHTMLElement (mkDOMRect JS.Infinity (JS.of_Z 1) (JS.of_Z 0) (JS.of_Z 1)))
  = None.
Proof. vm_compute. reflexivity. Qed.

(** ** The transition table *)

Lemma wrapper_play_animation (t : Transition) (p : Wrapper.Props)
  (st : Wrapper.State) :
  Wrapper.play t p st
  = Wrapper.animation p (tableArguments t).1.1 (tableArguments t).1.2
      (tableArguments t).2 st.
Proof. destruct t; reflexivity. Qed.

Lemma hook_play_animation (t : Transition) (p : Hook.Props) (st : Hook.State) :
  Hook.play t p st
  = Hook.animation p (tableArguments t).1.1 (tableArguments t).1.2
      (tableArguments t).2 st.
Proof. destruct t; reflexivity. Qed.

Lemma wrapper_play_calls (t : Transition) (p : Wrapper.Props)
  (st : Wrapper.State) :
  wrapperCalls (Wrapper.play t p st) = wrapperCalls st ++ [tableArguments t].
Proof.
  rewrite wrapper_play_animation. unfold wrapperCalls, Wrapper.animation. cbn.
  rewrite List.map_app. cbn. unfold arguments. cbn.
  by destruct (tableArguments t) as [[? ?] ?].
Qed.

Lemma hook_play_calls (t : Transition) (p : Hook.Props) (st : Hook.State) :
  hookCalls (Hook.play t p st) = hookCalls st ++ [tableArguments t].
Proof.
  rewrite hook_play_animation. unfold hookCalls, Hook.animation. cbn.
  rewrite List.map_app. cbn. unfold arguments. cbn.
  by destruct (tableArguments t) as [[? ?] ?].
Qed.

Lemma wrapper_play_filled (t : Transition) (p : Wrapper.Props)
  (st : Wrapper.State) :
  Wrapper.isFilled (Wrapper.play t p st) = Wrapper.isFilled st.
Proof. destruct t; reflexivity. Qed.

Lemma hook_play_hovered (t : Transition) (p : Hook.Props) (st : Hook.State) :
  Hook.hovered (Hook.play t p st) = Hook.hovered st.
Proof. destruct t; reflexivity. Qed.

Lemma tableArguments_injective (t u : Transition) :
  tableArguments t = tableArguments u -> t = u.
Proof. destruct t, u; intros H; try reflexivity; discriminate H. Qed.

(** The two variants declare the same windows and shapes. *)
Lemma hook_constants :
  [Hook.vbCenter; Hook.vbTop; Hook.vbBottom; Hook.vbLeft; Hook.vbRight]
  = [Wrapper.vbCenter; Wrapper.vbTop; Wrapper.vbBottom; Wrapper.vbLeft;
     Wrapper.vbRight]
  /\ [Hook.squarePath; Hook.concaveTopPath; Hook.concaveRightPath;
      Hook.concaveBottomPath; Hook.concaveLeftPath; Hook.convexTopPath;
      Hook.convexBottomPath; Hook.convexLeftPath; Hook.convexRightPath]
     = List.map shapeString
         [square; concaveTop; concaveRight; concaveBottom; concaveLeft;
          convexTop; convexBottom; convexLeft; convexRight].
Proof. split; reflexivity. Qed.

(** What the names of the shapes mean: a concave shape pulls the control
    point of its edge to the middle of the box, a convex one pushes it 50
    units out of the box; the other edges stay straight. *)
Example shapes_control_points :
  controlPoints (shapeString square)
  = Some [(50, 0); (100, 50); (50, 100); (0, 50)]
  /\ controlPoints (shapeString concaveTop)
     = Some [(50, 50); (100, 50); (50, 100); (0, 50)]
  /\ controlPoints (shapeString concaveRight)
     = Some [(50, 0); (50, 50); (50, 100); (0, 50)]
  /\ controlPoints (shapeString concaveBottom)
     = Some [(50, 0); (100, 50); (50, 50); (0, 50)]
  /\ controlPoints (shapeString concaveLeft)
     = Some [(50, 0); (100, 50); (50, 100); (50, 50)]
  /\ controlPoints (shapeString convexTop)
     = Some [(50, -50); (100, 50); (50, 100); (0, 50)]
  /\ controlPoints (shapeString convexRight)
     = Some [(50, 0); (150, 50); (50, 100); (0, 50)]
  /\ controlPoints (shapeString convexBottom)
     = Some [(50, 0); (100, 50); (50, 150); (0, 50)]
  /\ controlPoints (shapeString convexLeft)
     = Some [(50, 0); (100, 50); (50, 100); (-50, 50)].
Proof. repeat split; vm_compute; reflexivity. Qed.

(** C2.  Each of the eight named transitions is one call of the animation
    driver with the start window, end window and path of the table of
    section 4.2; the center window reads [0 0 100 100] and each offset
    window has the same size and is moved by 101 or -101 along one axis. *)
Theorem transitions_follow_table :
  (forall (t : Transition) (p : Wrapper.Props) (st : Wrapper.State),
      Wrapper.play t p st
      = Wrapper.animation p (tableArguments t).1.1 (tableArguments t).1.2
          (tableArguments t).2 st
      /\ wrapperCalls (Wrapper.play t p st)
         = wrapperCalls st ++ [tableArguments t])
  /\ (forall (t : Transition) (p : Hook.Props) (st : Hook.State),
         hookCalls (Hook.play t p st) = hookCalls st ++ [tableArguments t])
  /\ Svg.parseViewBox (windowString center) = Some (Svg.mkViewBox 0 0 100 100)
  /\ Svg.parseViewBox (windowString topOffset)
     = Some (Svg.mkViewBox 0 101 100 100)
  /\ Svg.parseViewBox (windowString bottomOffset)
     = Some (Svg.mkViewBox 0 (-101) 100 100)
  /\ Svg.parseViewBox (windowString leftOffset)
     = Some (Svg.mkViewBox 101 0 100 100)
  /\ Svg.parseViewBox (windowString rightOffset)
     = Some (Svg.mkViewBox (-101) 0 100 100)
  /\ forallb (fun w =>
                match Svg.parseViewBox (windowString w) with
                | Some vb => Svg.shiftedOneAxis 101 centerWindow vb
                | None => false
                end)
       [topOffset; bottomOffset; leftOffset; rightOffset] = true.
Proof.
  split; [|split].
  - intros t p st. split;
      [apply wrapper_play_animation | apply wrapper_play_calls].
  - apply hook_play_calls.
  - repeat split; vm_compute; reflexivity.
Qed.

(** ** Inversion of the direction *)

Lemma play_withInvert (t : Transition) (b : bool) (p : Wrapper.Props)
  (st : Wrapper.State) :
  Wrapper.play t (withInvert b p) st = Wrapper.play t p st.
Proof. destruct t; reflexivity. Qed.

Lemma opposite_differs (t : Transition) : opposite t <> t.
Proof. destruct t; discriminate. Qed.

(** The opposite transition is another call of the driver. *)
Lemma opposite_other_call (t : Transition) :
  tableArguments (opposite t) <> tableArguments t.
Proof.
  intros H. apply tableArguments_injective in H. by apply opposite_differs in H.
Qed.

(** The driver calls the wrapper's pointer handlers add, for a detected
    direction and without pinning. *)
Lemma enter_calls (p : Wrapper.Props) (e : MouseEvent) (st : Wrapper.State)
  (dir : Direction) :
  getMouseEnterDirection e (target e) = Some dir ->
  Wrapper.fillPin p = false ->
  Wrapper.isFilled st = false ->
  wrapperCalls (Wrapper.handleMouseEnter p e st)
  = wrapperCalls st
    ++ [tableArguments (if Wrapper.fillInvert p
                        then opposite (enterTransition dir)
                        else enterTransition dir)].
Proof.
  intros Hdir Hpin Hf. unfold Wrapper.handleMouseEnter.
  rewrite Hf, Hpin, Hdir. unfold wrapperCalls.
  destruct (Wrapper.fillInvert p), dir; cbn; by rewrite List.map_app.
Qed.

Lemma leave_calls (p : Wrapper.Props) (e : MouseEvent) (st : Wrapper.State)
  (dir : Direction) :
  getMouseEnterDirection e (target e) = Some dir ->
  Wrapper.fillPin p = false ->
  Wrapper.isFilled st = true ->
  wrapperCalls (Wrapper.handleMouseLeave p e st)
  = wrapperCalls st
    ++ [tableArguments (if Wrapper.fillInvert p && negb (Direction_eqb dir left)
                        then opposite (leaveTransition dir)
                        else leaveTransition dir)].
Proof.
  intros Hdir Hpin Hf. unfold Wrapper.handleMouseLeave.
  rewrite Hf, Hpin, Hdir. unfold wrapperCalls.
  destruct (Wrapper.fillInvert p), dir; cbn; by rewrite List.map_app.
Qed.

(** C3.  In the wrapper, for a detected direction and without pinning,
    stated on the calls of the animation driver.  With the invert flag off
    a pointer-enter read by a render that is not filled adds the call of
    the dispatch table's transition (bottom: slide up in, top: slide down
    in, left: slide left in, right: slide right in) and a pointer-leave
    read by a filled render adds the call of its mirrored exit.  With the
    flag on the enter adds the call of the opposite compass direction for
    every direction, and the leave does so for top, bottom and right,
    while leaving by the left adds the call of [slideLeftOut], from the
    center window to the left-hand one with the concave right path,
    whatever the flag.  The opposite transition is always another call. *)
Theorem invert_swaps_all_but_left_leave
  (p : Wrapper.Props) (e : MouseEvent) (idle filled : Wrapper.State)
  (dir : Direction) :
  getMouseEnterDirection e (target e) = Some dir ->
  Wrapper.fillPin p = false ->
  Wrapper.isFilled idle = false ->
  Wrapper.isFilled filled = true ->
  wrapperCalls (Wrapper.handleMouseEnter (withInvert false p) e idle)
  = wrapperCalls idle ++ [tableArguments (enterTransition dir)]
  /\ wrapperCalls (Wrapper.handleMouseEnter (withInvert true p) e idle)
     = wrapperCalls idle ++ [tableArguments (opposite (enterTransition dir))]
  /\ wrapperCalls (Wrapper.handleMouseLeave (withInvert false p) e filled)
     = wrapperCalls filled ++ [tableArguments (leaveTransition dir)]
  /\ wrapperCalls (Wrapper.handleMouseLeave (withInvert true p) e filled)
     = wrapperCalls filled
       ++ [if Direction_eqb dir left
           then (Wrapper.vbCenter, Wrapper.vbLeft, Wrapper.concaveRightPath)
           else tableArguments (opposite (leaveTransition dir))]
  /\ tableArguments (opposite (enterTransition dir))
     <> tableArguments (enterTransition dir)
  /\ tableArguments (opposite (leaveTransition dir))
     <> tableArguments (leaveTransition dir)
  /\ tableArguments (leaveTransition left)
     = (Wrapper.vbCenter, Wrapper.vbLeft, Wrapper.concaveRightPath).
Proof.
  intros Hdir Hpin Hidle Hfilled.
  rewrite (enter_calls (withInvert false p) e idle dir Hdir Hpin Hidle).
  rewrite (enter_calls (withInvert true p) e idle dir Hdir Hpin Hidle).
  rewrite (leave_calls (withInvert false p) e filled dir Hdir Hpin Hfilled).
  rewrite (leave_calls (withInvert true p) e filled dir Hdir Hpin Hfilled).
  cbn. repeat split; try apply opposite_other_call.
  by destruct dir.
Qed.

(** With inversion on, a pointer leaving [box] by its left edge makes the
    wrapper call the driver from the center window to the left-hand one,
    as without inversion. *)
Lemma invert_swaps_all_but_left_leave_witness :
  wrapperCalls
    (Wrapper.handleMouseLeave (withInvert true Wrapper.defaultProps) fromLeft
       filledMount)
  = [(Wrapper.vbCenter, Wrapper.vbLeft, Wrapper.concaveRightPath)].
Proof.
  apply (invert_swaps_all_but_left_leave Wrapper.defaultProps fromLeft
           emptyMount filledMount left).
  - vm_compute. reflexivity.
  - reflexivity.
  - reflexivity.
  - reflexivity.
Defined.

(** ** The animation driver *)

(** The end of a timeline whose children start at zero and last [dur] or
    nothing is [dur]. *)
Lemma Qmax_zero_dur (dur : Q) :
  (0 <= dur)%Q -> (Qmax (Qmax (Qmax 0 (0 + 0)) (0 + dur)) (0 + dur) == dur)%Q.
Proof.
  intros H.
  assert (H0 : (Qmax 0 (0 + 0) == 0)%Q) by reflexivity.
  assert (Hd : (0 + dur == dur)%Q) by ring.
  rewrite H0, !Hd.
  rewrite (Q.max_r 0 dur H). apply Q.max_l. apply Qle_refl.
Qed.

Lemma Qmax_zero_zero_dur (dur : Q) :
  (0 <= dur)%Q ->
  (Qmax (Qmax (Qmax (Qmax 0 (0 + 0)) (Qmax 0 (0 + 0) + 0)) (0 + dur)) (0 + dur)
   == dur)%Q.
Proof.
  intros H.
  assert (H0 : (Qmax (Qmax 0 (0 + 0)) (Qmax 0 (0 + 0) + 0) == 0)%Q)
    by reflexivity.
  assert (Hd : (0 + dur == dur)%Q) by ring.
  rewrite H0, !Hd.
  rewrite (Q.max_r 0 dur H). apply Q.max_l. apply Qle_refl.
Qed.

(** The square tween overlaps the end of the timeline by 70% of its own
    duration: it starts when 30% of the duration has elapsed. *)
Lemma overlap_start (total dur : Q) :
  (total == dur)%Q ->
  (total + inject_Z (-70) / 100 * dur == (3 # 10) * dur)%Q.
Proof. intros ->. field. Qed.

(** With the default duration of half a second the square tween starts at
    0.15 s, not at 0.35 s. *)
Lemma square_tween_counterexample :
  exists c,
    nth_error
      (Gsap.children
         (Wrapper.buildTimeline Wrapper.defaultProps Wrapper.vbTop
            Wrapper.vbCenter Wrapper.convexBottomPath)) 3 = Some c
    /\ Gsap.value c = Wrapper.squarePath
    /\ (Gsap.startTime c == 15 # 100)%Q
    /\ ~ (Gsap.startTime c == 35 # 100)%Q.
Proof.
  eexists. split; [reflexivity|]. split; [reflexivity|].
  split; [reflexivity|]. intros H. vm_compute in H. discriminate H.
Qed.

(** C4 (amended).  Every call of the driver builds a timeline that (a)
    first sets the viewBox of the svg to the start window, at time zero and
    without duration; (b) starts at time zero the tween of the viewBox to
    the end window and the tween of the path to the directional shape, each
    over the configured duration with the easing [power2.out]; (c) chains a
    tween of the path to the square that overlaps the end of these by 70%
    of the duration, so that it starts when 30% of the duration has
    elapsed.  The hook variant also sets the path to the square at time
    zero. *)
Theorem animation_timeline
  (wp : Wrapper.Props) (hp : Hook.Props) (a b s : string) :
  (0 <= Wrapper.fillDuration wp)%Q ->
  (0 <= Hook.duration hp)%Q ->
  (exists c1 c2 c3 c4,
      Gsap.children (Wrapper.buildTimeline wp a b s) = [c1; c2; c3; c4]
      /\ drives c1 Gsap.SetAttr Gsap.svg "viewBox" a 0 0
      /\ drives c2 Gsap.TweenAttr Gsap.svg "viewBox" b
           (Wrapper.fillDuration wp) 0
      /\ drives c3 Gsap.TweenAttr Gsap.path "d" s (Wrapper.fillDuration wp) 0
      /\ drives c4 Gsap.TweenAttr Gsap.path "d" Wrapper.squarePath
           (Wrapper.fillDuration wp) ((3 # 10) * Wrapper.fillDuration wp)
      /\ Forall (fun c => Gsap.ease c = "power2.out") [c1; c2; c3; c4])
  /\ (exists c1 c0 c2 c3 c4,
         Gsap.children (Hook.buildTimeline hp a b s) = [c1; c0; c2; c3; c4]
         /\ drives c1 Gsap.SetAttr Gsap.svg "viewBox" a 0 0
         /\ drives c0 Gsap.SetAttr Gsap.path "d" Hook.squarePath 0 0
         /\ drives c2 Gsap.TweenAttr Gsap.svg "viewBox" b (Hook.duration hp) 0
         /\ drives c3 Gsap.TweenAttr Gsap.path "d" s (Hook.duration hp) 0
         /\ drives c4 Gsap.TweenAttr Gsap.path "d" Hook.squarePath
              (Hook.duration hp) ((3 # 10) * Hook.duration hp)
         /\ Forall (fun c => Gsap.ease c = "power2.out") [c1; c0; c2; c3; c4]).
Proof.
  intros Hw Hh. split.
  - do 4 eexists. split; [reflexivity|].
    repeat (split; [repeat split; reflexivity|]).
    split; [|repeat constructor].
    repeat (split; [reflexivity|]).
    apply overlap_start, Qmax_zero_dur, Hw.
  - do 5 eexists. split; [reflexivity|].
    repeat (split; [repeat split; reflexivity|]).
    split; [|repeat constructor].
    repeat (split; [reflexivity|]).
    apply overlap_start, Qmax_zero_zero_dur, Hh.
Qed.

(** At the default duration of half a second, in the wrapper: the last
    child starts at 3/10 of 1/2. *)
Lemma animation_timeline_witness :
  exists c1 c2 c3 c4,
    Gsap.children
      (Wrapper.buildTimeline Wrapper.defaultProps Wrapper.vbTop
         Wrapper.vbCenter Wrapper.convexBottomPath) = [c1; c2; c3; c4]
    /\ drives c1 Gsap.SetAttr Gsap.svg "viewBox" Wrapper.vbTop 0 0
    /\ drives c2 Gsap.TweenAttr Gsap.svg "viewBox" Wrapper.vbCenter (1 # 2) 0
    /\ drives c3 Gsap.TweenAttr Gsap.path "d" Wrapper.convexBottomPath
         (1 # 2) 0
    /\ drives c4 Gsap.TweenAttr Gsap.path "d" Wrapper.squarePath
         (1 # 2) ((3 # 10) * (1 # 2))
    /\ Forall (fun c => Gsap.ease c = "power2.out") [c1; c2; c3; c4].
Proof.
  apply (animation_timeline Wrapper.defaultProps Hook.defaultProps
           Wrapper.vbTop Wrapper.vbCenter Wrapper.convexBottomPath).
  - vm_compute. discriminate.
  - vm_compute. discriminate.
Defined.

(** ** Pinning *)

Lemma hook_pinned_no_animation (p : Hook.Props) (e : MouseEvent)
  (st : Hook.State) :
  Hook.pinned p = true ->
  Hook.handleMouseEnter p e st = Hook.setHovered true st
  /\ Hook.handleMouseLeave p e st = Hook.setHovered false st
  /\ Hook.dom (Hook.mount p) = mkDOM Hook.vbCenter (Some Hook.squarePath).
Proof.
  intros Hpin. unfold Hook.handleMouseEnter, Hook.handleMouseLeave, Hook.mount,
    Hook.vbInit. rewrite Hpin.
  destruct st as [[] dm calls]; repeat split; reflexivity.
Qed.

(** What a pinned handler of the wrapper does: it never calls the driver,
    and it queues the new value of the flag unless the render it belongs to
    already has that value, in which case it returns at once. *)
Lemma pinned_handlers (p : Wrapper.Props) (e : MouseEvent)
  (st : Wrapper.State) :
  Wrapper.fillPin p = true ->
  Wrapper.handleMouseEnter p e st
  = (if Wrapper.isFilled st then st else Wrapper.setIsFilled true st)
  /\ Wrapper.handleFocus p st
     = (if Wrapper.isFilled st then st else Wrapper.setIsFilled true st)
  /\ Wrapper.handleMouseLeave p e st
     = (if Wrapper.isFilled st then Wrapper.setIsFilled false st else st)
  /\ Wrapper.handleBlur p st
     = (if Wrapper.isFilled st then Wrapper.setIsFilled false st else st).
Proof.
  intros Hpin.
  unfold Wrapper.handleMouseEnter, Wrapper.handleMouseLeave,
    Wrapper.handleFocus, Wrapper.handleBlur.
  rewrite Hpin. by destruct (Wrapper.isFilled st).
Qed.

(** Read by a render that has seen every earlier update, a pinned enter or
    focus leaves the flag on and a pinned leave or blur leaves it off at
    the next render, without a driver call. *)
Lemma pinned_sets_flag (p : Wrapper.Props) (e : MouseEvent)
  (st : Wrapper.State) :
  Wrapper.fillPin p = true ->
  Wrapper.pending st = None ->
  Wrapper.isFilled (Wrapper.render (Wrapper.handleMouseEnter p e st)) = true
  /\ Wrapper.isFilled (Wrapper.render (Wrapper.handleFocus p st)) = true
  /\ Wrapper.isFilled (Wrapper.render (Wrapper.handleMouseLeave p e st)) = false
  /\ Wrapper.isFilled (Wrapper.render (Wrapper.handleBlur p st)) = false.
Proof.
  intros Hpin Hq.
  destruct (pinned_handlers p e st Hpin) as (-> & -> & -> & ->).
  destruct st as [[] q dm calls]; cbn in Hq |- *; subst q; by repeat split.
Qed.

(** C5.  The pinned wrapper at the failing input.  No handler calls the
    driver or touches the attributes, and mounting gives the center window
    and the square: that much of the claim holds.  But an event does not
    always set or clear the flag.  The wrapper is rendered filled, the
    pointer leaves and enters again before React re-renders: the enter
    reads the [isFilled] of its render, true, and returns, and the next
    render has [isFilled] false although the last event was an enter.
    From mount, an enter and a leave before the re-render leave the flag
    on.  With a re-render between the two events the flag follows the last
    event. *)
Theorem pinned_event_before_rerender_is_lost :
  Wrapper.isFilled
    (Wrapper.run pinnedProps
       [Wrapper.pointer (Leave fromLeft); Wrapper.pointer (Enter fromTop);
        Wrapper.rerender]
       (Wrapper.withIsFilled true (Wrapper.mount pinnedProps)))
  = false
  /\ Wrapper.isFilled
       (Wrapper.run pinnedProps
          [Wrapper.pointer (Enter fromTop); Wrapper.pointer (Leave fromLeft);
           Wrapper.rerender]
          (Wrapper.mount pinnedProps))
     = true
  /\ Wrapper.isFilled
       (Wrapper.run pinnedProps
          [Wrapper.pointer (Leave fromLeft); Wrapper.rerender;
           Wrapper.pointer (Enter fromTop); Wrapper.rerender]
          (Wrapper.withIsFilled true (Wrapper.mount pinnedProps)))
     = true
  /\ Wrapper.animations
       (Wrapper.run pinnedProps
          [Wrapper.pointer (Leave fromLeft); Wrapper.pointer (Enter fromTop);
           Wrapper.rerender]
          (Wrapper.withIsFilled true (Wrapper.mount pinnedProps)))
     = []
  /\ Wrapper.dom (Wrapper.mount pinnedProps)
     = mkDOM "0 0 100 100" (Some Wrapper.squarePath).
Proof. repeat split; vm_compute; reflexivity. Qed.

(** ** Duplicate events *)

(** A state of the hook variant whose flag is [b] is of the form
    [setHovered b st]. *)
Lemma hovered_state_shape (st : Hook.State) :
  Hook.setHovered (Hook.hovered st) st = st.
Proof. by destruct st. Qed.

(** The guards: a handler whose render, or whose ref, already has the
    value it would set returns the state as it is.  The hook reads the ref
    that the previous handler wrote; the wrapper reads the constant of its
    render. *)
Lemma guards_return_at_once
  (wp : Wrapper.Props) (hp : Hook.Props) (e : MouseEvent)
  (ws : Wrapper.State) (hs : Hook.State) :
  (Wrapper.isFilled ws = true ->
   Wrapper.handleMouseEnter wp e ws = ws /\ Wrapper.handleFocus wp ws = ws)
  /\ (Wrapper.isFilled ws = false ->
      Wrapper.handleMouseLeave wp e ws = ws /\ Wrapper.handleBlur wp ws = ws)
  /\ Hook.handleMouseEnter hp e (Hook.handleMouseEnter hp e hs)
     = Hook.handleMouseEnter hp e hs
  /\ Hook.handleMouseLeave hp e (Hook.handleMouseLeave hp e hs)
     = Hook.handleMouseLeave hp e hs.
Proof.
  unfold Wrapper.handleMouseEnter, Wrapper.handleMouseLeave,
    Wrapper.handleFocus, Wrapper.handleBlur.
  split; [by intros ->|]. split; [by intros ->|].
  unfold Hook.handleMouseEnter, Hook.handleMouseLeave.
  destruct hs as [[] dm calls]; cbn;
    destruct (Hook.pinned hp),
      (getMouseEnterDirection e (target e)) as [[]|]; by split.
Qed.

(** C6.  The wrapper at the failing input.  From mount, two pointer-enter
    events before React re-renders are both read with [isFilled] false
    and each plays the slide in; on a host with the tab animation, an enter
    and a focus before the re-render play two slides in; two leaves of a
    filled wrapper before the re-render play two slides out.  The hook
    variant, whose flag is a ref, plays one, and so does the wrapper when
    it re-renders between the two events. *)
Theorem duplicate_enter_before_rerender_animates_again :
  wrapperCalls
    (Wrapper.run Wrapper.defaultProps
       [Wrapper.pointer (Enter fromTop); Wrapper.pointer (Enter fromTop)]
       (Wrapper.mount Wrapper.defaultProps))
  = [(Wrapper.vbTop, Wrapper.vbCenter, Wrapper.convexBottomPath);
     (Wrapper.vbTop, Wrapper.vbCenter, Wrapper.convexBottomPath)]
  /\ wrapperCalls
       (Host.fireAll tabProps ∅
          [Host.dispatch (Host.mouseenter fromTop); Host.dispatch Host.focus]
          (Wrapper.mount tabProps))
     = [(Wrapper.vbTop, Wrapper.vbCenter, Wrapper.convexBottomPath);
        (Wrapper.vbBottom, Wrapper.vbCenter, Wrapper.convexTopPath)]
  /\ wrapperCalls
       (Wrapper.run Wrapper.defaultProps
          [Wrapper.pointer (Leave fromLeft); Wrapper.pointer (Leave fromLeft)]
          filledMount)
     = [(Wrapper.vbCenter, Wrapper.vbLeft, Wrapper.concaveRightPath);
        (Wrapper.vbCenter, Wrapper.vbLeft, Wrapper.concaveRightPath)]
  /\ wrapperCalls
       (Wrapper.run Wrapper.defaultProps
          [Wrapper.pointer (Enter fromTop); Wrapper.rerender;
           Wrapper.pointer (Enter fromTop)]
          (Wrapper.mount Wrapper.defaultProps))
     = [(Wrapper.vbTop, Wrapper.vbCenter, Wrapper.convexBottomPath)]
  /\ hookCalls
       (Hook.run Hook.defaultProps [Enter fromTop; Enter fromTop]
          (Hook.mount Hook.defaultProps))
     = [(Hook.vbTop, Hook.vbCenter, Hook.convexBottomPath)].
Proof. repeat split; vm_compute; reflexivity. Qed.

(** ** Focus and blur *)

Lemma play_withTabDirections (t : Transition) (enter leave : Tab.Direction)
  (p : Wrapper.Props) (st : Wrapper.State) :
  Wrapper.play t (withTabDirections enter leave p) st = Wrapper.play t p st.
Proof. destruct t; reflexivity. Qed.





(** A caller's own [onFocus], spread after the component's, replaces it. *)
Example caller_onFocus_wins (p : Wrapper.Props) :
  Wrapper.hostProps p {[ "onFocus" := Wrapper.FromCaller 0 ]} !! "onFocus"
  = Some (Wrapper.FromCaller 0).
Proof.
  unfold Wrapper.hostProps. rewrite !lookup_union.
  rewrite lookup_singleton_eq. by destruct (_ !! _), (_ !! _).
Qed.

(** ** The two variants side by side *)

Lemma alike_cases (w h : PointerEvent) :
  alike w h = true ->
  exists (ew eh : MouseEvent) (dir : Direction),
    getMouseEnterDirection ew (target ew) = Some dir
    /\ getMouseEnterDirection eh (target eh) = Some dir
    /\ ((w = Enter ew /\ h = Enter eh) \/ (w = Leave ew /\ h = Leave eh)).
Proof.
  unfold alike, detected.
  destruct w as [ew|ew], h as [eh|eh]; try discriminate; cbn;
    destruct (getMouseEnterDirection ew (target ew)) as [a|] eqn:Ea;
    try discriminate;
    destruct (getMouseEnterDirection eh (target eh)) as [b|] eqn:Eb;
    try discriminate;
    intros H; exists ew, eh, a;
    (assert (a = b) as <- by (by destruct a, b));
    (split; [exact Ea|]); (split; [exact Eb|]);
    [left | right]; by split.
Qed.

(** One event reaching both variants, the wrapper re-rendering after
    it. *)
Lemma agree_step (wp : Wrapper.Props) (hp : Hook.Props) (w h : PointerEvent)
  (ws : Wrapper.State) (hs : Hook.State) :
  Wrapper.fillPin wp = Hook.pinned hp ->
  Wrapper.fillInvert wp = false ->
  alike w h = true ->
  Wrapper.pending ws = None ->
  agree ws hs ->
  Wrapper.pending (Wrapper.render (Wrapper.step wp ws (Wrapper.pointer w)))
  = None
  /\ agree (Wrapper.render (Wrapper.step wp ws (Wrapper.pointer w)))
       (Hook.step hp hs h).
Proof.
  intros Hpin Hinv Halike Hq [Hf Hc].
  destruct (alike_cases w h Halike) as (ew & eh & dir & Hw & Hh & Hcase).
  destruct ws as [wf wq wd wc], hs as [hf hd hc].
  cbn in Hq, Hf. subst wq hf. unfold wrapperCalls, hookCalls in Hc. cbn in Hc.
  split; [reflexivity|].
  destruct Hcase as [[-> ->]|[-> ->]]; cbn;
    unfold Wrapper.handleMouseEnter, Wrapper.handleMouseLeave,
      Hook.handleMouseEnter, Hook.handleMouseLeave;
    cbn; rewrite <- Hpin, Hinv, Hw, Hh;
    destruct wf, (Wrapper.fillPin wp), dir; cbn;
    (split; [reflexivity|]); unfold wrapperCalls, hookCalls; cbn;
    rewrite ?List.map_app, ?Hc; reflexivity.
Qed.

Lemma agree_run (wp : Wrapper.Props) (hp : Hook.Props)
  (forWrapper : list PointerEvent) :
  forall (forHook : list PointerEvent) (ws : Wrapper.State) (hs : Hook.State),
  Wrapper.fillPin wp = Hook.pinned hp ->
  Wrapper.fillInvert wp = false ->
  allAlike forWrapper forHook = true ->
  Wrapper.pending ws = None ->
  agree ws hs ->
  agree (Wrapper.run wp (Wrapper.renderedAfterEach forWrapper) ws)
        (Hook.run hp forHook hs).
Proof.
  induction forWrapper as [|w ws' IH]; intros [|h hs'] ws hs Hpin Hinv Hall Hq Hag;
    try discriminate; [exact Hag|].
  cbn in Hall. apply andb_prop in Hall as [Hwh Hall].
  destruct (agree_step wp hp w h ws hs Hpin Hinv Hwh Hq Hag) as [Hq' Hag'].
  apply (IH hs' _ _ Hpin Hinv Hall Hq' Hag').
Qed.

(** Without [onMouseEnter] and [onMouseLeave] among the caller's props a
    pointer event on the host runs the component's handler. *)
Lemma fire_pointer (p : Wrapper.Props) (props : gmap string Wrapper.PropValue)
  (ev : PointerEvent) (st : Wrapper.State) :
  props !! "onMouseEnter" = None ->
  props !! "onMouseLeave" = None ->
  Host.fire p props st (onHost ev) = Wrapper.step p st (Wrapper.pointer ev).
Proof.
  intros He Hl. unfold Host.fire, Wrapper.hostProps.
  destruct ev as [e|e]; cbn [onHost Host.propName];
    rewrite !lookup_union, ?He, ?Hl;
    destruct (Wrapper.fillOnTab p); reflexivity.
Qed.

Lemma hostTrace_run (p : Wrapper.Props) (props : gmap string Wrapper.PropValue)
  (evs : list PointerEvent) :
  props !! "onMouseEnter" = None ->
  props !! "onMouseLeave" = None ->
  forall st,
    Host.fireAll p props (hostTrace evs) st
    = Wrapper.run p (Wrapper.renderedAfterEach evs) st.
Proof.
  intros He Hl. induction evs as [|ev evs IH]; intros st; [reflexivity|].
  cbn. rewrite (fire_pointer p props ev st He Hl). apply IH.
Qed.

(** With the invert flag on, a pointer entering by the top makes the
    wrapper call the driver for the up-in transition and the hook variant
    for the down-in transition. *)
Lemma variants_differ_counterexample :
  wrapperCalls (Host.fireAll (withInvert true Wrapper.defaultProps) ∅
                  (hostTrace [Enter fromTop])
                  (Wrapper.mount (withInvert true Wrapper.defaultProps)))
  = [(Wrapper.vbBottom, Wrapper.vbCenter, Wrapper.convexTopPath)]
  /\ hookCalls (Hook.run Hook.defaultProps [Enter fromTop]
                  (Hook.mount Hook.defaultProps))
     = [(Hook.vbTop, Hook.vbCenter, Hook.convexBottomPath)]
  /\ wrapperCalls (Host.fireAll (withInvert true Wrapper.defaultProps) ∅
                     (hostTrace [Enter fromTop])
                     (Wrapper.mount (withInvert true Wrapper.defaultProps)))
     <> hookCalls (Hook.run Hook.defaultProps [Enter fromTop]
                     (Hook.mount Hook.defaultProps)).
Proof.
  assert (Hw : wrapperCalls
                 (Host.fireAll (withInvert true Wrapper.defaultProps) ∅
                    (hostTrace [Enter fromTop])
                    (Wrapper.mount (withInvert true Wrapper.defaultProps)))
               = [(Wrapper.vbBottom, Wrapper.vbCenter, Wrapper.convexTopPath)])
    by (vm_compute; reflexivity).
  assert (Hh : hookCalls (Hook.run Hook.defaultProps [Enter fromTop]
                            (Hook.mount Hook.defaultProps))
               = [(Hook.vbTop, Hook.vbCenter, Hook.convexBottomPath)])
    by (vm_compute; reflexivity).
  split; [exact Hw|]. split; [exact Hh|].
  rewrite Hw, Hh. intros H. vm_compute in H. discriminate H.
Qed.

(** Without a detected direction the wrapper falls into its last branch
    and slides in from the right, the hook variant does nothing. *)
Example variants_differ_without_direction :
  wrapperCalls (Host.fireAll Wrapper.defaultProps ∅
                  (hostTrace [Enter fromNowhere])
                  (Wrapper.mount Wrapper.defaultProps))
  = [(Wrapper.vbRight, Wrapper.vbCenter, Wrapper.convexLeftPath)]
  /\ hookCalls (Hook.run Hook.defaultProps [Enter fromNowhere]
                  (Hook.mount Hook.defaultProps)) = [].
Proof. split; vm_compute; reflexivity. Qed.

(** An enter and a leave that both arrive before the wrapper re-renders:
    the wrapper's leave reads [isFilled] false and returns, its flag is on
    at the next render and it has called the driver once; the hook's flag
    is off and it has called the driver twice. *)
Example variants_differ_before_rerender :
  Wrapper.isFilled
    (Host.fireAll Wrapper.defaultProps ∅
       [Host.dispatch (Host.mouseenter fromTop);
        Host.dispatch (Host.mouseleave fromLeft); Host.rerender]
       (Wrapper.mount Wrapper.defaultProps)) = true
  /\ List.length
       (wrapperCalls
          (Host.fireAll Wrapper.defaultProps ∅
             [Host.dispatch (Host.mouseenter fromTop);
              Host.dispatch (Host.mouseleave fromLeft); Host.rerender]
             (Wrapper.mount Wrapper.defaultProps))) = 1%nat
  /\ Hook.hovered
       (Hook.run Hook.defaultProps [Enter fromTop; Leave fromLeft]
          (Hook.mount Hook.defaultProps)) = false
  /\ List.length
       (hookCalls
          (Hook.run Hook.defaultProps [Enter fromTop; Leave fromLeft]
             (Hook.mount Hook.defaultProps))) = 2%nat.
Proof. repeat split; vm_compute; reflexivity. Qed.

(** One pointer position, seen by the wrapper with the inner element as
    target and by the hook's listener with the parent: the nearest edge of
    the inner element is its right one, that of the parent the top one. *)
Example variants_differ_by_target :
  clientX atInner = clientX atBox
  /\ clientY atInner = clientY atBox
  /\ getMouseEnterDirection atInner (target atInner) = Some right
  /\ getMouseEnterDirection atBox (target atBox) = Some top
  /\ alike (Enter atInner) (Enter atBox) = false.
Proof. repeat split; vm_compute; reflexivity. Qed.

(** A caller who passes its own [onMouseEnter] to the wrapper takes the
    component's handler off the host: nothing is played.  The hook's
    listeners sit on the parent and cannot be replaced this way. *)
Example variants_differ_by_caller_props :
  wrapperCalls
    (Host.fireAll Wrapper.defaultProps
       {[ "onMouseEnter" := Wrapper.FromCaller 0 ]}
       (hostTrace [Enter fromTop]) (Wrapper.mount Wrapper.defaultProps))
  = []
  /\ hookCalls (Hook.run Hook.defaultProps [Enter fromTop]
                  (Hook.mount Hook.defaultProps))
     = [(Hook.vbTop, Hook.vbCenter, Hook.convexBottomPath)].
Proof. split; vm_compute; reflexivity. Qed.

(** C9 (amended).  The two variants agree under these conditions: the
    wrapper's invert-direction flag is off (the hook variant has no such
    flag), both are pinned alike, the caller passes the wrapper no
    [onMouseEnter] or [onMouseLeave] of its own, the wrapper re-renders
    after each event before the next one arrives, and each pointer event,
    as the wrapper's handler and as the hook's listener receive it, is an
    enter for both or a leave for both with the same detected direction.
    Then after any sequence of such events from mount the two variants
    have the same filled state and have called the animation driver with
    the same start window, end window and path, in the same order. *)
Theorem variants_agree_without_inversion
  (wp : Wrapper.Props) (props : gmap string Wrapper.PropValue)
  (hp : Hook.Props) (forWrapper forHook : list PointerEvent) :
  Wrapper.fillPin wp = Hook.pinned hp ->
  Wrapper.fillInvert wp = false ->
  props !! "onMouseEnter" = None ->
  props !! "onMouseLeave" = None ->
  allAlike forWrapper forHook = true ->
  Wrapper.isFilled
    (Host.fireAll wp props (hostTrace forWrapper) (Wrapper.mount wp))
  = Hook.hovered (Hook.run hp forHook (Hook.mount hp))
  /\ wrapperCalls
       (Host.fireAll wp props (hostTrace forWrapper) (Wrapper.mount wp))
     = hookCalls (Hook.run hp forHook (Hook.mount hp)).
Proof.
  intros Hpin Hinv He Hl Hall.
  rewrite (hostTrace_run wp props forWrapper He Hl).
  apply (agree_run wp hp forWrapper forHook); try assumption;
    [reflexivity | by split].
Qed.

(** An enter by the top and a leave by the left: both variants end not
    filled after a slide down in and a slide left out. *)
Lemma variants_agree_without_inversion_witness :
  Wrapper.isFilled
    (Host.fireAll Wrapper.defaultProps ∅
       (hostTrace [Enter fromTop; Leave fromLeft])
       (Wrapper.mount Wrapper.defaultProps))
  = Hook.hovered
      (Hook.run Hook.defaultProps [Enter fromTop; Leave fromLeft]
         (Hook.mount Hook.defaultProps))
  /\ wrapperCalls
       (Host.fireAll Wrapper.defaultProps ∅
          (hostTrace [Enter fromTop; Leave fromLeft])
          (Wrapper.mount Wrapper.defaultProps))
     = hookCalls
         (Hook.run Hook.defaultProps [Enter fromTop; Leave fromLeft]
            (Hook.mount Hook.defaultProps)).
Proof.
  apply (variants_agree_without_inversion Wrapper.defaultProps ∅
           Hook.defaultProps [Enter fromTop; Leave fromLeft]
           [Enter fromTop; Leave fromLeft]).
  - reflexivity.
  - reflexivity.
  - reflexivity.
  - reflexivity.
  - vm_compute. reflexivity.
Defined.

(** ** The first render *)

(** C10.  After mounting, in both variants, the viewBox of the svg is
    ["0 101 100 100"] when the pinned flag is off and ["0 0 100 100"] when
    it is on, and the path is the square.  The square is the outline of the
    window [0 0 100 100], so with the flag on it covers what the svg shows;
    every point of it lies above the window [0 101 100 100], so with the
    flag off nothing of it is visible. *)
Theorem initial_viewBox_and_path (wp : Wrapper.Props) (hp : Hook.Props) :
  Wrapper.dom (Wrapper.mount wp)
  = mkDOM (if Wrapper.fillPin wp then "0 0 100 100" else "0 101 100 100")
      (Some Wrapper.squarePath)
  /\ Hook.dom (Hook.mount hp)
     = mkDOM (if Hook.pinned hp then "0 0 100 100" else "0 101 100 100")
         (Some Hook.squarePath)
  /\ Wrapper.isFilled (Wrapper.mount wp) = false
  /\ Hook.hovered (Hook.mount hp) = false
  /\ Hook.squarePath = Wrapper.squarePath
  /\ exists sq,
      Svg.parsePath Wrapper.squarePath = Some sq
      /\ Svg.parseViewBox "0 0 100 100" = Some centerWindow
      /\ Svg.fillsWindow centerWindow sq = true
      /\ Svg.parseViewBox "0 101 100 100" = Some (Svg.mkViewBox 0 101 100 100)
      /\ Svg.aboveWindow (Svg.mkViewBox 0 101 100 100) sq = true
      /\ forallb (fun pt => negb (Svg.inWindow (Svg.mkViewBox 0 101 100 100) pt))
           (Svg.points sq) = true.
Proof.
  split; [|split].
  - unfold Wrapper.mount, Wrapper.onMount. cbn.
    destruct (Wrapper.fillPin wp); reflexivity.
  - unfold Hook.mount, Hook.vbInit. cbn.
    destruct (Hook.pinned hp); reflexivity.
  - repeat (split; [reflexivity|]).
    eexists. split; [vm_compute; reflexivity|].
    repeat split; vm_compute; reflexivity.
Qed.

(** * Further properties *)

(** ** The detector on and near an edge *)

Lemma le_antisym (x y : JS.number) :
  JS.le x y = true -> JS.le y x = true -> JS.strict_eq x y = true.
Proof.
  intros Hxy Hyx.
  destruct (JS.strict_eq x y) eqn:E; [reflexivity|].
  exfalso. eapply lt_not_le; [|exact Hyx]. by apply le_not_eq_lt.
Qed.

Lemma strict_eq_trans (x y z : JS.number) :
  JS.strict_eq x y = true -> JS.strict_eq y z = true ->
  JS.strict_eq x z = true.
Proof.
  intros [Hxy Hyx]%strict_eq_le [Hyz Hzy]%strict_eq_le.
  apply le_antisym; eapply le_trans; eassumption.
Qed.

Lemma Direction_eq_dec (a b : Direction) : {a = b} + {a <> b}.
Proof. decide equality. Defined.

(** X1.  When no distance is NaN and one edge is strictly nearer than the
    three others, the detector returns that edge. *)
Theorem strictly_nearest_edge_wins
  (e : MouseEvent) (el : HTMLElement) (dir : Direction) :
  someDistanceNaN e el = false ->
  (forall other, other <> dir ->
     JS.lt (edgeDistance e el dir) (edgeDistance e el other) = true) ->
  getMouseEnterDirection e el = Some dir.
Proof.
  intros Hnan Hnear.
  destruct (detector_defined e el Hnan) as (d0 & Hd0 & _ & Hle & _).
  destruct (Direction_eq_dec d0 dir) as [-> | Hne]; [exact Hd0|].
  exfalso. eapply lt_not_le; [apply (Hnear d0 Hne) | apply Hle].
Qed.

Lemma strictly_nearest_edge_wins_witness :
  getMouseEnterDirection (pointerAt 219 30 box) box = Some right.
Proof.
  apply (strictly_nearest_edge_wins (pointerAt 219 30 box) box right).
  - vm_compute. reflexivity.
  - intros [] H; try congruence; vm_compute; reflexivity.
Defined.

(** Distances are never negative. *)
Lemma abs_nonneg (x : JS.number) :
  JS.isNaN x = false -> JS.le (JS.of_Z 0) (JS.Math_abs x) = true.
Proof. destruct x as [[]|[]| |[] ? ?]; intros H; try discriminate; reflexivity. Qed.

Lemma edgeDistance_nonneg (e : MouseEvent) (el : HTMLElement)
  (dir : Direction) :
  JS.isNaN (edgeDistance e el dir) = false ->
  JS.le (JS.of_Z 0) (edgeDistance e el dir) = true.
Proof.
  destruct dir; cbn [edgeDistance];
    unfold topEdgeDistance, bottomEdgeDistance, leftEdgeDistance,
      rightEdgeDistance;
    intros H; apply abs_nonneg; by destruct (JS.sub _ _).
Qed.

Lemma not_someDistanceNaN (e : MouseEvent) (el : HTMLElement)
  (dir : Direction) :
  someDistanceNaN e el = false -> JS.isNaN (edgeDistance e el dir) = false.
Proof.
  unfold someDistanceNaN. intros H.
  repeat (apply orb_false_elim in H as [H ?]). by destruct dir.
Qed.

(** A distance of zero is minimal, so the first edge at distance zero is
    found. *)
Lemma detector_zero_distance
  (e : MouseEvent) (el : HTMLElement) (dir : Direction) :
  someDistanceNaN e el = false ->
  JS.strict_eq (edgeDistance e el dir) (JS.of_Z 0) = true ->
  exists found,
    getMouseEnterDirection e el = Some found
    /\ (priority found <= priority dir)%nat
    /\ JS.strict_eq (edgeDistance e el found) (JS.of_Z 0) = true.
Proof.
  intros Hnan Hzero.
  destruct (detector_defined e el Hnan) as (found & Hfound & Hmin & Hle & Hlt).
  exists found. split; [exact Hfound|].
  assert (Hfz : JS.strict_eq (edgeDistance e el found) (JS.of_Z 0) = true).
  { apply le_antisym.
    - eapply le_trans; [apply (Hle dir)|]. by apply strict_eq_le in Hzero as [? _].
    - apply edgeDistance_nonneg, not_someDistanceNaN, Hnan. }
  split; [|exact Hfz].
  destruct (le_lt_dec (priority found) (priority dir)) as [Hp|Hp]; [exact Hp|].
  exfalso. eapply lt_not_le; [apply (Hlt dir Hp)|].
  apply strict_eq_le in Hzero as [Hz _]. eapply le_trans; [exact Hz|].
  apply edgeDistance_nonneg, not_someDistanceNaN, Hnan.
Qed.

(** X2.  When no distance is NaN and the pointer is at distance zero from
    an edge, the detector returns an edge at distance zero: that edge or
    one that comes before it in the order top, bottom, left, right. *)
Theorem zero_distance_edge_wins
  (e : MouseEvent) (el : HTMLElement) (dir : Direction) :
  someDistanceNaN e el = false ->
  JS.strict_eq (edgeDistance e el dir) (JS.of_Z 0) = true ->
  exists found,
    getMouseEnterDirection e el = Some found
    /\ (priority found <= priority dir)%nat
    /\ JS.strict_eq (edgeDistance e el found) (JS.of_Z 0) = true.
Proof. exact (detector_zero_distance e el dir). Qed.

Lemma zero_distance_edge_wins_witness :
  exists found,
    getMouseEnterDirection (pointerAt 20 30 box) box = Some found
    /\ (priority found <= priority left)%nat
    /\ JS.strict_eq (edgeDistance (pointerAt 20 30 box) box found) (JS.of_Z 0)
       = true.
Proof.
  apply (zero_distance_edge_wins (pointerAt 20 30 box) box left).
  - vm_compute. reflexivity.
  - vm_compute. reflexivity.
Defined.

(** A finite number minus itself is [+0]. *)
Lemma sub_self (x : JS.number) :
  JS.isFinite x = true -> JS.sub x x = JS.of_Z 0.
Proof.
  destruct x as [[]|[]| |s m ex]; intros H; try discriminate; try reflexivity.
  unfold JS.sub, SFsub. rewrite Z.sub_diag. reflexivity.
Qed.

(** X3.  For finite coordinates, a pointer whose [clientY] is the
    rectangle's [top] is detected as [top], wherever it is horizontally and
    whatever the size of the rectangle. *)
Theorem pointer_on_top_edge (e : MouseEvent) (el : HTMLElement) :
  finiteInput e el = true ->
  clientY e = rect_top (getBoundingClientRect el) ->
  getMouseEnterDirection e el = Some top.
Proof.
  intros Hfin Hy.
  assert (Hyfin : JS.isFinite (clientY e) = true).
  { unfold finiteInput in Hfin.
    repeat (apply andb_prop in Hfin as [Hfin ?]). assumption. }
  destruct (detector_zero_distance e el top) as (found & Hf & Hp & _).
  - by apply finite_distances.
  - cbn [edgeDistance]. unfold topEdgeDistance. rewrite <- Hy.
    rewrite (sub_self _ Hyfin). reflexivity.
  - destruct found; cbn in Hp; [exact Hf | lia | lia | lia].
Qed.

Lemma pointer_on_top_edge_witness :
  getMouseEnterDirection (pointerAt 500 10 box) box = Some top.
Proof.
  apply (pointer_on_top_edge (pointerAt 500 10 box) box); reflexivity.
Defined.

(** ** Events on the wrapper's host element *)

(** X4.  The caller's remaining props reach the host element unchanged,
    also under a name the component uses itself, and the names on the
    host are the caller's together with [ref], [onMouseEnter],
    [onMouseLeave] and, when the tab-animation flag is on, [onFocus] and
    [onBlur]. *)
Theorem caller_props_pass_through
  (p : Wrapper.Props) (props : gmap string Wrapper.PropValue) :
  (forall name v, props !! name = Some v ->
                  Wrapper.hostProps p props !! name = Some v)
  /\ dom (Wrapper.hostProps p props)
     = dom props
       ∪ {[ "ref"; "onMouseEnter"; "onMouseLeave" ]}
       ∪ (if Wrapper.fillOnTab p then {[ "onFocus"; "onBlur" ]} else ∅).
Proof.
  split.
  - intros name v H. unfold Wrapper.hostProps.
    apply lookup_union_Some_l, lookup_union_Some_l, H.
  - unfold Wrapper.hostProps. rewrite !dom_union_L.
    destruct (Wrapper.fillOnTab p);
      rewrite ?dom_insert_L, ?dom_singleton_L, ?dom_empty_L;
      apply set_eq; intros name; rewrite !elem_of_union, !elem_of_singleton;
      pose proof (not_elem_of_empty (C := gset string) name); tauto.
Qed.

Lemma handler_sets_flag (p : Wrapper.Props) (e : MouseEvent)
  (st : Wrapper.State) :
  Wrapper.pending st = None ->
  Wrapper.isFilled (Wrapper.render (Wrapper.handleMouseEnter p e st)) = true
  /\ Wrapper.isFilled (Wrapper.render (Wrapper.handleMouseLeave p e st))
     = false
  /\ Wrapper.isFilled (Wrapper.render (Wrapper.handleFocus p st)) = true
  /\ Wrapper.isFilled (Wrapper.render (Wrapper.handleBlur p st)) = false.
Proof.
  intros Hq.
  unfold Wrapper.handleMouseEnter, Wrapper.handleMouseLeave,
    Wrapper.handleFocus, Wrapper.handleBlur.
  destruct st as [[] q dm calls]; cbn in Hq |- *; subst q;
    destruct (Wrapper.fillPin p), (Wrapper.fillInvert p),
      (getMouseEnterDirection e (target e)) as [[]|];
    repeat split; reflexivity.
Qed.

(** X5.  Take the wrapper between two events with every earlier update
    rendered.  After an event for which the host carries the component's
    own handler, and the re-render that follows, [isFilled] tells the kind
    of the event: true after a pointer-enter or focus, false after a
    pointer-leave or blur, whatever it was before.  An event whose prop is
    absent or replaced by the caller leaves the component's state as it
    is. *)
Theorem flag_follows_last_event
  (p : Wrapper.Props) (props : gmap string Wrapper.PropValue)
  (ev : Host.Event) (st : Wrapper.State) :
  Wrapper.pending st = None ->
  (Wrapper.hostProps p props !! Host.propName ev = Some (Host.ownHandler ev) ->
   Wrapper.isFilled (Wrapper.render (Host.fire p props st ev)) = Host.fills ev)
  /\ (Wrapper.hostProps p props !! Host.propName ev = None ->
      Host.fire p props st ev = st)
  /\ (forall n,
        Wrapper.hostProps p props !! Host.propName ev
        = Some (Wrapper.FromCaller n) ->
        Host.fire p props st ev = st).
Proof.
  intros Hq. unfold Host.fire. split; [|split].
  - intros ->.
    destruct (handler_sets_flag p (mouseEvent (Enter fromTop)) st Hq)
      as (_ & _ & Hf & Hb).
    destruct ev as [e|e| |]; cbn.
    + apply (handler_sets_flag p e st Hq).
    + apply (handler_sets_flag p e st Hq).
    + exact Hf.
    + exact Hb.
  - by intros ->.
  - intros n ->. by destruct ev.
Qed.

(** A filled wrapper that has re-rendered is not filled any more after a
    pointer-leave and the next render. *)
Lemma flag_follows_last_event_witness :
  Wrapper.isFilled
    (Wrapper.render
       (Host.fire Wrapper.defaultProps ∅ filledMount
          (Host.mouseleave fromLeft)))
  = false.
Proof.
  apply (flag_follows_last_event Wrapper.defaultProps ∅
           (Host.mouseleave fromLeft) filledMount); reflexivity.
Defined.

(** When an update is still waiting for its render the flag does not
    follow the event: after an enter, a leave that arrives before the
    re-render reads [isFilled] false and returns, and the next render is
    filled. *)
Example leave_before_rerender_is_lost :
  Wrapper.isFilled
    (Wrapper.render
       (Host.fire Wrapper.defaultProps ∅
          (Host.fire Wrapper.defaultProps ∅ emptyMount
             (Host.mouseenter fromTop))
          (Host.mouseleave fromLeft)))
  = true.
Proof. vm_compute. reflexivity. Qed.

(** ** The calls of the driver alternate *)

Lemma slidIn_snoc (calls : list AnimationCall) (c : AnimationCall) :
  slidIn (calls ++ [c]) = String.eqb (vbTo c) Wrapper.vbCenter.
Proof. unfold slidIn. by rewrite last_snoc. Qed.

Lemma forallb_snoc {A : Type} (f : A -> bool) (l : list A) (x : A) :
  forallb f (l ++ [x]) = forallb f l && f x.
Proof. rewrite forallb_app. cbn. by rewrite andb_true_r. Qed.

Lemma alternates_snoc (calls : list AnimationCall) (c : AnimationCall) :
  forall inNext,
    alternates inNext (calls ++ [c])
    = alternates inNext calls
      && (if xorb inNext (Nat.odd (length calls)) then slidesIn c
          else slidesOut c).
Proof.
  induction calls as [|a calls IH]; intros inNext.
  - cbn. rewrite andb_true_r. by destruct inNext.
  - cbn [app alternates length]. rewrite IH, Nat.odd_succ, <- Nat.negb_odd.
    rewrite andb_assoc. f_equal.
    by destruct inNext, (Nat.odd (length calls)).
Qed.

Lemma odd_snoc {A : Type} (l : list A) (x : A) :
  Nat.odd (length (l ++ [x])) = negb (Nat.odd (length l)).
Proof.
  rewrite length_app. cbn. rewrite Nat.add_1_r, Nat.odd_succ.
  by rewrite <- Nat.negb_odd.
Qed.

Lemma handlers_inStep (p : Wrapper.Props) (e : MouseEvent)
  (st : Wrapper.State) :
  Wrapper.fillPin p = false -> inStep st ->
  inStep (Wrapper.render (Wrapper.handleMouseEnter p e st))
  /\ inStep (Wrapper.render (Wrapper.handleMouseLeave p e st))
  /\ inStep (Wrapper.render (Wrapper.handleFocus p st))
  /\ inStep (Wrapper.render (Wrapper.handleBlur p st)).
Proof.
  intros Hpin (Hq & Halt & Hodd & Hin).
  unfold Wrapper.handleMouseEnter, Wrapper.handleMouseLeave,
    Wrapper.handleFocus, Wrapper.handleBlur.
  rewrite Hpin.
  destruct st as [f q dm calls]; cbn in Hq, Halt, Hodd, Hin; subst q.
  destruct f, (Wrapper.fillInvert p),
    (getMouseEnterDirection e (target e)) as [[]|];
    cbn; unfold inStep; cbn;
    rewrite ?alternates_snoc, ?odd_snoc, ?slidIn_snoc, ?Halt, <- ?Hodd;
    repeat split; try assumption; reflexivity.
Qed.

Lemma render_inStep (st : Wrapper.State) : inStep st -> inStep (Wrapper.render st).
Proof.
  intros (Hq & Halt & Hodd & Hin). destruct st as [f q dm calls].
  cbn in Hq. subst q. by repeat split.
Qed.

Lemma fire_inStep (p : Wrapper.Props) (props : gmap string Wrapper.PropValue)
  (ev : Host.Event) (st : Wrapper.State) :
  Wrapper.fillPin p = false -> inStep st ->
  inStep (Wrapper.render (Host.fire p props st ev)).
Proof.
  intros Hpin Hst. unfold Host.fire.
  destruct (_ !! _) as [v|]; [|by apply render_inStep].
  destruct (handlers_inStep p (mouseEvent (Enter fromTop)) st Hpin Hst)
    as (_ & _ & Hf & Hb).
  destruct v, ev as [e|e| |]; cbn; try (by apply render_inStep);
    try assumption; apply (handlers_inStep p e st Hpin Hst).
Qed.

(** X6.  In the wrapper without pinning, when React re-renders after each
    event before the next one arrives: after any sequence of pointer and
    focus events from mount, whatever the caller's props, the driver calls
    so far slide in and out in turn, beginning with a slide in, and the
    filled flag is on exactly when the last call slid the overlay in. *)
Theorem flag_in_step_with_calls
  (p : Wrapper.Props) (props : gmap string Wrapper.PropValue)
  (evs : list Host.Event) :
  Wrapper.fillPin p = false ->
  alternates true
    (Wrapper.animations
       (Host.fireAll p props (Host.renderedAfterEach evs) (Wrapper.mount p)))
  = true
  /\ Wrapper.isFilled
       (Host.fireAll p props (Host.renderedAfterEach evs) (Wrapper.mount p))
     = slidIn
         (Wrapper.animations
            (Host.fireAll p props (Host.renderedAfterEach evs)
               (Wrapper.mount p))).
Proof.
  intros Hpin.
  assert (H : forall st, inStep st ->
                inStep (Host.fireAll p props (Host.renderedAfterEach evs) st)).
  { induction evs as [|ev evs IH]; intros st Hst; [exact Hst|].
    cbn. apply IH, fire_inStep; assumption. }
  destruct (H (Wrapper.mount p)) as (_ & Halt & _ & Hin); [by repeat split|].
  by split.
Qed.

(** An enter, a focus and a leave, each rendered: one slide in, then one
    slide out. *)
Lemma flag_in_step_with_calls_witness :
  alternates true
    (Wrapper.animations
       (Host.fireAll Wrapper.defaultProps ∅
          (Host.renderedAfterEach
             [Host.mouseenter fromTop; Host.focus; Host.mouseleave fromLeft])
          (Wrapper.mount Wrapper.defaultProps)))
  = true
  /\ Wrapper.isFilled
       (Host.fireAll Wrapper.defaultProps ∅
          (Host.renderedAfterEach
             [Host.mouseenter fromTop; Host.focus; Host.mouseleave fromLeft])
          (Wrapper.mount Wrapper.defaultProps))
     = slidIn
         (Wrapper.animations
            (Host.fireAll Wrapper.defaultProps ∅
               (Host.renderedAfterEach
                  [Host.mouseenter fromTop; Host.focus;
                   Host.mouseleave fromLeft])
               (Wrapper.mount Wrapper.defaultProps))).
Proof.
  apply (flag_in_step_with_calls Wrapper.defaultProps ∅
           [Host.mouseenter fromTop; Host.focus; Host.mouseleave fromLeft]).
  reflexivity.
Defined.

(** Without a re-render between them two enters give two slides in: the
    calls do not alternate. *)
Example calls_do_not_alternate_before_rerender :
  alternates true
    (Wrapper.animations
       (Host.fireAll Wrapper.defaultProps ∅
          [Host.dispatch (Host.mouseenter fromTop);
           Host.dispatch (Host.mouseenter fromTop)]
          (Wrapper.mount Wrapper.defaultProps)))
  = false.
Proof. vm_compute. reflexivity. Qed.

Lemma hook_handlers_inStep (p : Hook.Props) (e : MouseEvent)
  (st : Hook.State) :
  Hook.pinned p = false ->
  getMouseEnterDirection e (target e) <> None ->
  hookInStep st ->
  hookInStep (Hook.handleMouseEnter p e st)
  /\ hookInStep (Hook.handleMouseLeave p e st).
Proof.
  intros Hpin Hdir [Hf Hall].
  unfold Hook.handleMouseEnter, Hook.handleMouseLeave.
  rewrite Hpin.
  destruct st as [[] dm calls]; cbn in Hf, Hall |- *;
    destruct (getMouseEnterDirection e (target e)) as [[]|];
    try congruence;
    cbn; repeat split; try assumption; cbn;
    solve [ rewrite slidIn_snoc; reflexivity
          | rewrite forallb_snoc, Hall; reflexivity ].
Qed.

(** X7.  In the hook variant without pinning, after any sequence of pointer
    events with a detected direction from mount, every driver call so far
    starts or ends at the center window, not both, and [hovered] is on
    exactly when the last call slid the overlay in. *)
Theorem hovered_in_step_with_calls
  (p : Hook.Props) (evs : list PointerEvent) :
  Hook.pinned p = false ->
  directed evs = true ->
  Hook.hovered (Hook.run p evs (Hook.mount p))
  = slidIn (Hook.animations (Hook.run p evs (Hook.mount p)))
  /\ forallb inOrOut (Hook.animations (Hook.run p evs (Hook.mount p))) = true.
Proof.
  intros Hpin.
  assert (H : forall st, directed evs = true -> hookInStep st ->
                         hookInStep (Hook.run p evs st)).
  { induction evs as [|ev evs IH]; intros st Hdir Hst; [exact Hst|].
    cbn in Hdir. apply andb_prop in Hdir as [Hev Hevs].
    cbn. apply IH; [exact Hevs|].
    assert (Hd : getMouseEnterDirection (mouseEvent ev) (target (mouseEvent ev))
                 <> None) by (by destruct (getMouseEnterDirection _ _)).
    destruct ev as [e|e]; cbn in Hd |- *;
      apply (hook_handlers_inStep p e st Hpin Hd Hst). }
  intros Hdir. apply (H (Hook.mount p) Hdir). by split.
Qed.

Lemma hovered_in_step_with_calls_witness :
  Hook.hovered
    (Hook.run Hook.defaultProps [Enter fromTop; Leave fromLeft; Enter fromLeft]
       (Hook.mount Hook.defaultProps))
  = slidIn
      (Hook.animations
         (Hook.run Hook.defaultProps
            [Enter fromTop; Leave fromLeft; Enter fromLeft]
            (Hook.mount Hook.defaultProps)))
  /\ forallb inOrOut
       (Hook.animations
          (Hook.run Hook.defaultProps
             [Enter fromTop; Leave fromLeft; Enter fromLeft]
             (Hook.mount Hook.defaultProps)))
     = true.
Proof.
  apply (hovered_in_step_with_calls Hook.defaultProps
           [Enter fromTop; Leave fromLeft; Enter fromLeft]).
  - reflexivity.
  - vm_compute. reflexivity.
Defined.

(** Without a detected direction the hook variant turns [hovered] on and
    calls nothing: the flag and the overlay are out of step. *)
Example hovered_out_of_step :
  Hook.hovered (Hook.run Hook.defaultProps [Enter fromNowhere]
                  (Hook.mount Hook.defaultProps)) = true
  /\ Hook.animations (Hook.run Hook.defaultProps [Enter fromNowhere]
                        (Hook.mount Hook.defaultProps)) = [].
Proof. split; vm_compute; reflexivity. Qed.

(** ** Pinning, over whole sequences *)

Lemma pinned_invoke (p : Wrapper.Props) (v : Wrapper.PropValue)
  (ev : Host.Event) (st : Wrapper.State) :
  Wrapper.fillPin p = true ->
  Wrapper.dom (Host.invoke p v ev st) = Wrapper.dom st
  /\ Wrapper.animations (Host.invoke p v ev st) = Wrapper.animations st.
Proof.
  intros Hpin.
  destruct v, ev as [e|e| |]; cbn; try (by split);
    unfold Wrapper.handleMouseEnter, Wrapper.handleMouseLeave,
      Wrapper.handleFocus, Wrapper.handleBlur;
    rewrite Hpin; destruct st as [[] q dm calls]; by split.
Qed.

Lemma pinned_hook_step (p : Hook.Props) (ev : PointerEvent) (st : Hook.State) :
  Hook.pinned p = true ->
  Hook.dom (Hook.step p st ev) = Hook.dom st
  /\ Hook.animations (Hook.step p st ev) = Hook.animations st.
Proof.
  intros Hpin.
  destruct ev as [e|e]; cbn;
    unfold Hook.handleMouseEnter, Hook.handleMouseLeave;
    rewrite Hpin; destruct st as [[] dm calls]; by split.
Qed.

(** X8.  While pinned, no sequence of events ever calls the animation
    driver or changes the attributes of the svg and the path: in the
    wrapper for pointer and focus events under any caller props, in the
    hook variant for pointer events, from any state. *)
Theorem pinned_never_animates
  (wp : Wrapper.Props) (props : gmap string Wrapper.PropValue)
  (hp : Hook.Props) (hevs : list Host.Step) (pevs : list PointerEvent)
  (ws : Wrapper.State) (hs : Hook.State) :
  Wrapper.fillPin wp = true ->
  Hook.pinned hp = true ->
  Wrapper.dom (Host.fireAll wp props hevs ws) = Wrapper.dom ws
  /\ Wrapper.animations (Host.fireAll wp props hevs ws) = Wrapper.animations ws
  /\ Hook.dom (Hook.run hp pevs hs) = Hook.dom hs
  /\ Hook.animations (Hook.run hp pevs hs) = Hook.animations hs.
Proof.
  intros Hw Hh.
  assert (Hwall : Wrapper.dom (Host.fireAll wp props hevs ws) = Wrapper.dom ws
                  /\ Wrapper.animations (Host.fireAll wp props hevs ws)
                     = Wrapper.animations ws).
  { revert ws. unfold Host.fireAll.
    induction hevs as [|ev evs IH]; intros ws; [by split|].
    cbn. destruct (IH (Host.step wp props ws ev)) as [-> ->].
    destruct ev as [ev|]; cbn; [|by split].
    unfold Host.fire. destruct (_ !! _) as [v|]; [|by split].
    apply pinned_invoke, Hw. }
  assert (Hhall : Hook.dom (Hook.run hp pevs hs) = Hook.dom hs
                  /\ Hook.animations (Hook.run hp pevs hs)
                     = Hook.animations hs).
  { revert hs. unfold Hook.run.
    induction pevs as [|ev evs IH]; intros hs; [by split|].
    cbn. destruct (IH (Hook.step hp hs ev)) as [-> ->].
    apply pinned_hook_step, Hh. }
  destruct Hwall, Hhall. auto.
Qed.

Lemma pinned_never_animates_witness :
  Wrapper.dom
    (Host.fireAll pinnedProps ∅
       [Host.dispatch (Host.mouseenter fromTop); Host.rerender;
        Host.dispatch (Host.mouseleave fromLeft)]
       (Wrapper.mount pinnedProps))
  = Wrapper.dom (Wrapper.mount pinnedProps)
  /\ Wrapper.animations
       (Host.fireAll pinnedProps ∅
          [Host.dispatch (Host.mouseenter fromTop); Host.rerender;
           Host.dispatch (Host.mouseleave fromLeft)]
          (Wrapper.mount pinnedProps))
     = Wrapper.animations (Wrapper.mount pinnedProps)
  /\ Hook.dom
       (Hook.run (Hook.mkProps "white" 1 (1 # 2) true false None)
          [Enter fromTop]
          (Hook.mount (Hook.mkProps "white" 1 (1 # 2) true false None)))
     = Hook.dom (Hook.mount (Hook.mkProps "white" 1 (1 # 2) true false None))
  /\ Hook.animations
       (Hook.run (Hook.mkProps "white" 1 (1 # 2) true false None)
          [Enter fromTop]
          (Hook.mount (Hook.mkProps "white" 1 (1 # 2) true false None)))
     = Hook.animations
         (Hook.mount (Hook.mkProps "white" 1 (1 # 2) true false None)).
Proof.
  apply (pinned_never_animates pinnedProps ∅
           (Hook.mkProps "white" 1 (1 # 2) true false None)
           [Host.dispatch (Host.mouseenter fromTop); Host.rerender;
            Host.dispatch (Host.mouseleave fromLeft)]
           [Enter fromTop]);
    reflexivity.
Defined.

(** ** How long a transition takes *)

Lemma wrapper_timeline_times (p : Wrapper.Props) (a b s : string) :
  (0 <= Wrapper.fillDuration p)%Q ->
  Forall2 Qeq
    (List.map Gsap.endTime (Gsap.children (Wrapper.buildTimeline p a b s)))
    [0; Wrapper.fillDuration p; Wrapper.fillDuration p;
     (13 # 10) * Wrapper.fillDuration p]%Q.
Proof.
  intros H. cbn. unfold Gsap.endTime. cbn.
  repeat constructor; try ring.
  rewrite (overlap_start _ _ (Qmax_zero_dur _ H)). ring.
Qed.

Lemma hook_timeline_times (p : Hook.Props) (a b s : string) :
  (0 <= Hook.duration p)%Q ->
  Forall2 Qeq
    (List.map Gsap.endTime (Gsap.children (Hook.buildTimeline p a b s)))
    [0; 0; Hook.duration p; Hook.duration p; (13 # 10) * Hook.duration p]%Q.
Proof.
  intros H. cbn. unfold Gsap.endTime. cbn.
  repeat constructor; try ring.
  rewrite (overlap_start _ _ (Qmax_zero_zero_dur _ H)). ring.
Qed.

Lemma Qmax_dur_overlap (dur : Q) :
  (0 <= dur)%Q -> (Qmax dur ((13 # 10) * dur) == (13 # 10) * dur)%Q.
Proof.
  intros H. apply Q.max_r.
  rewrite <- (Qmult_1_l dur) at 1.
  apply Qmult_le_compat_r; [discriminate | exact H].
Qed.

(** X9.  For a duration that is not negative, a transition is over after
    1.3 times the duration, in both variants: that is the end of the
    timeline and the end of the tween to the square, and the set and the
    two first tweens end before, at zero and at the duration. *)
Theorem transition_takes_thirteen_tenths
  (wp : Wrapper.Props) (hp : Hook.Props) (a b s : string) :
  (0 <= Wrapper.fillDuration wp)%Q ->
  (0 <= Hook.duration hp)%Q ->
  (Gsap.totalDuration (Wrapper.buildTimeline wp a b s)
   == (13 # 10) * Wrapper.fillDuration wp)%Q
  /\ Forall2 Qeq
       (List.map Gsap.endTime (Gsap.children (Wrapper.buildTimeline wp a b s)))
       [0; Wrapper.fillDuration wp; Wrapper.fillDuration wp;
        (13 # 10) * Wrapper.fillDuration wp]%Q
  /\ (Gsap.totalDuration (Hook.buildTimeline hp a b s)
      == (13 # 10) * Hook.duration hp)%Q
  /\ Forall2 Qeq
       (List.map Gsap.endTime (Gsap.children (Hook.buildTimeline hp a b s)))
       [0; 0; Hook.duration hp; Hook.duration hp;
        (13 # 10) * Hook.duration hp]%Q.
Proof.
  intros Hw Hh.
  split; [|split; [by apply wrapper_timeline_times|
                   split; [|by apply hook_timeline_times]]].
  - unfold Gsap.totalDuration. cbn. unfold Gsap.endTime. cbn.
    rewrite (overlap_start _ _ (Qmax_zero_dur _ Hw)).
    rewrite (Qmax_zero_dur _ Hw).
    assert (E : ((3 # 10) * Wrapper.fillDuration wp + Wrapper.fillDuration wp
                 == (13 # 10) * Wrapper.fillDuration wp)%Q) by ring.
    rewrite E. by apply Qmax_dur_overlap.
  - unfold Gsap.totalDuration. cbn. unfold Gsap.endTime. cbn.
    rewrite (overlap_start _ _ (Qmax_zero_zero_dur _ Hh)).
    rewrite (Qmax_zero_zero_dur _ Hh).
    assert (E : ((3 # 10) * Hook.duration hp + Hook.duration hp
                 == (13 # 10) * Hook.duration hp)%Q) by ring.
    rewrite E. by apply Qmax_dur_overlap.
Qed.

(** At the default half second a transition takes 0.65 s. *)
Lemma transition_takes_thirteen_tenths_witness :
  (Gsap.totalDuration
     (Wrapper.buildTimeline Wrapper.defaultProps Wrapper.vbTop Wrapper.vbCenter
        Wrapper.convexBottomPath)
   == (13 # 10) * (1 # 2))%Q.
Proof.
  apply (transition_takes_thirteen_tenths Wrapper.defaultProps
           Hook.defaultProps Wrapper.vbTop Wrapper.vbCenter
           Wrapper.convexBottomPath).
  - vm_compute. discriminate.
  - vm_compute. discriminate.
Defined.

(** ** The forwarded ref *)

Lemma syncAll_app (fr : Ref.ForwardedRef) (els els' : list (option HTMLElement))
  (r : Ref.Refs) :
  Ref.syncAll fr (els ++ els') r = Ref.syncAll fr els' (Ref.syncAll fr els r).
Proof. unfold Ref.syncAll. apply fold_left_app. Qed.

Lemma attached_snoc (els : list (option HTMLElement))
  (el : option HTMLElement) :
  Ref.attached (els ++ [el])
  = Ref.attached els ++ match el with Some x => [x] | None => [] end.
Proof. unfold Ref.attached. rewrite omap_app. by destruct el. Qed.

(** X10.  After any sequence of calls of the ref callback, [null] calls
    included, [containerRef] holds the last element that was not [null] (or
    what it held before, if there was none): a [null] never clears it.  An
    object ref holds the same element, a function ref has been called with
    the elements that were not [null], in order, and never with [null]. *)
Theorem refs_keep_last_element
  (els : list (option HTMLElement)) (r : Ref.Refs) :
  (forall fr,
      Ref.containerRef (Ref.syncAll fr els r)
      = match last (Ref.attached els) with
        | Some x => Some x
        | None => Ref.containerRef r
        end)
  /\ Ref.forwardedCurrent (Ref.syncAll Ref.object els r)
     = match last (Ref.attached els) with
       | Some x => Some x
       | None => Ref.forwardedCurrent r
       end
  /\ Ref.forwardedCalls (Ref.syncAll Ref.function els r)
     = Ref.forwardedCalls r ++ Ref.attached els
  /\ Ref.forwardedCalls (Ref.syncAll Ref.object els r) = Ref.forwardedCalls r
  /\ Ref.forwardedCurrent (Ref.syncAll Ref.function els r)
     = Ref.forwardedCurrent r
  /\ Ref.syncAll Ref.null els r
     = Ref.mkRefs (match last (Ref.attached els) with
                   | Some x => Some x
                   | None => Ref.containerRef r
                   end)
         (Ref.forwardedCurrent r) (Ref.forwardedCalls r).
Proof.
  induction els as [|el els IH] using rev_ind.
  - cbn. rewrite app_nil_r. repeat split; try reflexivity. by destruct r.
  - destruct IH as (Hc & Ho & Hf & Hoc & Hfc & Hn).
    rewrite attached_snoc.
    repeat split; try intros fr; rewrite syncAll_app; cbn;
      destruct el as [x|]; cbn; rewrite ?app_nil_r, ?last_snoc;
      try (destruct fr; cbn); rewrite ?Hc, ?Ho, ?Hf, ?Hoc, ?Hfc, ?Hn;
      rewrite ?app_assoc; try reflexivity.
Qed.

(** ** The listeners of the hook variant *)

Lemma foreign_not_same (l : Effect.Listener) (n : nat) (q : Hook.Props)
  (own : Effect.Listener) :
  In own (ownListeners n q) -> Effect.isForeign l = true ->
  Effect.sameListener own l = false.
Proof.
  destruct l as [t [m r|m r|id]]; try discriminate. intros Hin _.
  destruct Hin as [<-|[<-|[]]]; unfold Effect.sameListener; cbn;
    apply andb_false_r.
Qed.

Lemma existsb_foreign (ls : list Effect.Listener) (n : nat) (q : Hook.Props)
  (own : Effect.Listener) :
  In own (ownListeners n q) -> forallb Effect.isForeign ls = true ->
  existsb (Effect.sameListener own) ls = false.
Proof.
  intros Hin. induction ls as [|l ls IH]; [reflexivity|].
  cbn. intros [Hl Hls]%andb_prop.
  by rewrite (foreign_not_same l n q own Hin Hl), IH.
Qed.

Lemma add_own (ls : list Effect.Listener) (n : nat) (q : Hook.Props) :
  forallb Effect.isForeign ls = true ->
  Effect.addEventListener (Effect.mouseleave, Effect.handleMouseLeave n q)
    (Effect.addEventListener (Effect.mouseenter, Effect.handleMouseEnter n q)
       ls)
  = ls ++ ownListeners n q.
Proof.
  intros Hls. unfold Effect.addEventListener at 2.
  rewrite (existsb_foreign ls n q) by (cbn; auto).
  unfold Effect.addEventListener. rewrite existsb_app.
  rewrite (existsb_foreign ls n q) by (cbn; auto).
  cbn. by rewrite <- app_assoc.
Qed.

Lemma remove_skip_foreign (ls rest : list Effect.Listener) (n : nat)
  (q : Hook.Props) (own : Effect.Listener) :
  In own (ownListeners n q) -> forallb Effect.isForeign ls = true ->
  Effect.removeEventListener own (ls ++ rest)
  = ls ++ Effect.removeEventListener own rest.
Proof.
  intros Hin. induction ls as [|l ls IH]; [reflexivity|].
  cbn. intros [Hl Hls]%andb_prop.
  by rewrite (foreign_not_same l n q own Hin Hl), IH.
Qed.

Lemma remove_own (ls : list Effect.Listener) (n : nat) (q : Hook.Props) :
  forallb Effect.isForeign ls = true ->
  Effect.removeEventListener (Effect.mouseleave, Effect.handleMouseLeave n q)
    (Effect.removeEventListener
       (Effect.mouseenter, Effect.handleMouseEnter n q)
       (ls ++ ownListeners n q))
  = ls.
Proof.
  intros Hls.
  rewrite (remove_skip_foreign ls _ n q) by (cbn; auto).
  cbn. unfold Effect.sameListener. cbn. rewrite Nat.eqb_refl. cbn.
  rewrite (remove_skip_foreign ls _ n q) by (cbn; auto).
  cbn. unfold Effect.sameListener. cbn. rewrite Nat.eqb_refl. cbn.
  apply app_nil_r.
Qed.

Lemma subscribe_subscribedTo (ls : list Effect.Listener) (i : Effect.Instance) :
  forallb Effect.isForeign ls = true ->
  Effect.listeners i = Some ls ->
  subscribedTo ls (Effect.runs i) (Effect.props i)
    (Effect.subscribe (Effect.props i) i).
Proof.
  intros Hls Hi. unfold Effect.subscribe. rewrite Hi.
  split; [reflexivity|]. split; [|reflexivity].
  cbn. by rewrite add_own.
Qed.

Lemma cleanup_subscribedTo (ls : list Effect.Listener) (n : nat)
  (q : Hook.Props) (i : Effect.Instance) :
  forallb Effect.isForeign ls = true ->
  subscribedTo ls n q i ->
  Effect.cleanup i
  = Effect.mkInstance (Effect.props i) (Effect.cell i)
      (Effect.renderedViewBox i) (Some ls) None (Effect.runs i).
Proof.
  intros Hls (Hs & Hl & _). unfold Effect.cleanup. rewrite Hs, Hl.
  by rewrite remove_own.
Qed.

Lemma rerender_subscribedTo (ls : list Effect.Listener) (n : nat)
  (q : Hook.Props) (i : Effect.Instance) (p' : Hook.Props) :
  forallb Effect.isForeign ls = true ->
  subscribedTo ls n q i ->
  exists n' q',
    subscribedTo ls n' q' (Effect.rerender i p')
    /\ Effect.props (Effect.rerender i p') = p'
    /\ (Hook.pinned p' = Hook.pinned (Effect.props i) -> q' = q).
Proof.
  intros Hls Hsub. unfold Effect.rerender.
  set (vb := Hook.vbInit p' _). set (cell' := if String.eqb vb _ then _ else _).
  destruct (Bool.eqb (Hook.pinned p') (Hook.pinned (Effect.props i))) eqn:E.
  - apply Bool.eqb_prop in E. destruct Hsub as (Hs & Hl & Hp).
    exists n, q. split; [|by split].
    split; [exact Hs|]. split; [exact Hl|]. cbn. congruence.
  - set (i' := Effect.mkInstance p' cell' vb _ _ _).
    assert (Hsub' : subscribedTo ls n q
                      (Effect.mkInstance (Effect.props i) cell' vb
                         (Effect.listeners i) (Effect.subscription i)
                         (Effect.runs i))) by exact Hsub.
    assert (Hc : Effect.cleanup i'
                 = Effect.mkInstance p' cell' vb (Some ls) None (Effect.runs i)).
    { destruct Hsub as (Hs & Hl & _). unfold Effect.cleanup, i'. cbn.
      rewrite Hs, Hl. by rewrite remove_own. }
    rewrite Hc. exists (Effect.runs i), p'. split; [|split].
    + by apply (subscribe_subscribedTo ls
                  (Effect.mkInstance p' cell' vb (Some ls) None (Effect.runs i))).
    + reflexivity.
    + intros Heq. rewrite Heq in E. by rewrite Bool.eqb_reflx in E.
Qed.

Lemma mount_subscribedTo (ls : list Effect.Listener) (p : Hook.Props) :
  forallb Effect.isForeign ls = true ->
  subscribedTo ls 0 p (Effect.mount p (Some ls))
  /\ Effect.props (Effect.mount p (Some ls)) = p.
Proof.
  intros Hls. split; [|reflexivity].
  by apply (subscribe_subscribedTo ls
              (Effect.mkInstance p (Hook.mount p) (Hook.vbInit p false)
                 (Some ls) None 0)).
Qed.

Lemma rerenderAll_subscribedTo (ls : list Effect.Listener)
  (ps : list Hook.Props) : forall (n : nat) (q : Hook.Props)
  (i : Effect.Instance),
  forallb Effect.isForeign ls = true ->
  subscribedTo ls n q i ->
  exists n' q',
    subscribedTo ls n' q' (Effect.rerenderAll ps i)
    /\ (Forall (fun p' => Hook.pinned p' = Hook.pinned (Effect.props i)) ps ->
        q' = q).
Proof.
  induction ps as [|p' ps IH]; intros n q i Hls Hsub.
  - exists n, q. by split.
  - destruct (rerender_subscribedTo ls n q i p' Hls Hsub)
      as (n1 & q1 & Hsub1 & Hp1 & Hq1).
    destruct (IH n1 q1 _ Hls Hsub1) as (n2 & q2 & Hsub2 & Hq2).
    exists n2, q2. split; [exact Hsub2|].
    intros Hall. pose proof (Forall_inv Hall) as Hhd.
    pose proof (Forall_inv_tail Hall) as Htl. cbn in Hhd.
    rewrite <- (Hq1 Hhd). apply Hq2. rewrite Hp1.
    eapply Forall_impl; [exact Htl|]. cbn. intros a Ha. congruence.
Qed.

Lemma dispatch_foreign (ev : PointerEvent) (ls : list Effect.Listener) :
  forallb Effect.isForeign ls = true ->
  forall st,
    fold_left
      (fun st l =>
         if Effect.EventType_eqb l.1 (Effect.eventType ev)
         then Effect.invoke l.2 ev st else st) ls st = st.
Proof.
  induction ls as [|l ls IH]; intros Hls st; [reflexivity|].
  cbn in Hls. apply andb_prop in Hls as [Hl Hls].
  assert (E : (if Effect.EventType_eqb l.1 (Effect.eventType ev)
               then Effect.invoke l.2 ev st else st) = st).
  { destruct l as [t cb]. destruct cb; try discriminate.
    cbn. by destruct (Effect.EventType_eqb _ _), ev. }
  cbn. rewrite E. by apply IH.
Qed.

Lemma dispatch_subscribedTo (ls : list Effect.Listener) (n : nat)
  (q : Hook.Props) (i : Effect.Instance) (ev : PointerEvent) :
  forallb Effect.isForeign ls = true ->
  subscribedTo ls n q i ->
  Effect.dispatch ev i = Hook.step q (Effect.cell i) ev.
Proof.
  intros Hls (_ & Hl & _). unfold Effect.dispatch. rewrite Hl. cbn.
  rewrite fold_left_app, (dispatch_foreign ev ls Hls).
  by destruct ev.
Qed.

(** X11.  Mounting the hook variant on a parent, re-rendering it any
    number of times with any props and unmounting it leaves the parent
    with exactly the listeners it had before: none of the component's
    listeners is left behind and no other listener is removed. *)
Theorem unmount_restores_listeners
  (ls : list Effect.Listener) (p : Hook.Props) (ps : list Hook.Props) :
  forallb Effect.isForeign ls = true ->
  Effect.unmount (Effect.rerenderAll ps (Effect.mount p (Some ls))) = Some ls.
Proof.
  intros Hls.
  destruct (mount_subscribedTo ls p Hls) as [Hm _].
  destruct (rerenderAll_subscribedTo ls ps 0 p _ Hls Hm) as (n & q & Hsub & _).
  unfold Effect.unmount. by rewrite (cleanup_subscribedTo ls n q _ Hls Hsub).
Qed.

Lemma unmount_restores_listeners_witness :
  Effect.unmount
    (Effect.rerenderAll
       [Hook.mkProps "white" 1 (1 # 2) true false None; Hook.defaultProps]
       (Effect.mount Hook.defaultProps (Some foreignListeners)))
  = Some foreignListeners.
Proof.
  apply (unmount_restores_listeners foreignListeners Hook.defaultProps
           [Hook.mkProps "white" 1 (1 # 2) true false None; Hook.defaultProps]).
  reflexivity.
Defined.

(** X12.  While the hook variant is mounted, after any number of
    re-renders, the parent carries besides its other listeners exactly one
    [mouseenter] and one [mouseleave] listener of the component, both from
    the same run of the effect; the props they captured have the [pinned]
    value of the latest render; and a pointer event dispatched by the
    parent acts on the component as the handler with those props. *)
Theorem one_pair_of_listeners
  (ls : list Effect.Listener) (p : Hook.Props) (ps : list Hook.Props) :
  forallb Effect.isForeign ls = true ->
  exists n q,
    Effect.listeners (Effect.rerenderAll ps (Effect.mount p (Some ls)))
    = Some (ls ++ [(Effect.mouseenter, Effect.handleMouseEnter n q);
                   (Effect.mouseleave, Effect.handleMouseLeave n q)])
    /\ Hook.pinned q
       = Hook.pinned
           (Effect.props (Effect.rerenderAll ps (Effect.mount p (Some ls))))
    /\ forall ev,
        Effect.dispatch ev (Effect.rerenderAll ps (Effect.mount p (Some ls)))
        = Hook.step q
            (Effect.cell (Effect.rerenderAll ps (Effect.mount p (Some ls))))
            ev.
Proof.
  intros Hls.
  destruct (mount_subscribedTo ls p Hls) as [Hm _].
  destruct (rerenderAll_subscribedTo ls ps 0 p _ Hls Hm) as (n & q & Hsub & _).
  exists n, q. destruct Hsub as (Hs & Hl & Hp) eqn:E.
  split; [exact Hl|]. split; [exact Hp|].
  intros ev. by apply (dispatch_subscribedTo ls n q).
Qed.

Lemma one_pair_of_listeners_witness :
  exists n q,
    Effect.listeners
      (Effect.rerenderAll [hookWithDuration 2]
         (Effect.mount Hook.defaultProps (Some foreignListeners)))
    = Some (foreignListeners
            ++ [(Effect.mouseenter, Effect.handleMouseEnter n q);
                (Effect.mouseleave, Effect.handleMouseLeave n q)])
    /\ Hook.pinned q
       = Hook.pinned
           (Effect.props
              (Effect.rerenderAll [hookWithDuration 2]
                 (Effect.mount Hook.defaultProps (Some foreignListeners))))
    /\ forall ev,
        Effect.dispatch ev
          (Effect.rerenderAll [hookWithDuration 2]
             (Effect.mount Hook.defaultProps (Some foreignListeners)))
        = Hook.step q
            (Effect.cell
               (Effect.rerenderAll [hookWithDuration 2]
                  (Effect.mount Hook.defaultProps (Some foreignListeners))))
            ev.
Proof.
  apply (one_pair_of_listeners foreignListeners Hook.defaultProps
           [hookWithDuration 2]).
  reflexivity.
Defined.

(** X13.  The effect of the hook variant depends on [pinned] only: as
    long as the re-renders do not change [pinned], the listeners are those
    of the mount and run with the props of the mount.  A later change of
    the other props, the duration among them, does not reach the
    handlers. *)
Theorem handlers_keep_mount_props
  (ls : list Effect.Listener) (p : Hook.Props) (ps : list Hook.Props)
  (ev : PointerEvent) :
  forallb Effect.isForeign ls = true ->
  Forall (fun p' => Hook.pinned p' = Hook.pinned p) ps ->
  Effect.listeners (Effect.rerenderAll ps (Effect.mount p (Some ls)))
  = Some (ls ++ [(Effect.mouseenter, Effect.handleMouseEnter 0 p);
                 (Effect.mouseleave, Effect.handleMouseLeave 0 p)])
  /\ Effect.dispatch ev (Effect.rerenderAll ps (Effect.mount p (Some ls)))
     = Hook.step p
         (Effect.cell (Effect.rerenderAll ps (Effect.mount p (Some ls)))) ev.
Proof.
  intros Hls Hall.
  assert (H : forall ps i n,
             subscribedTo ls n p i ->
             Forall (fun p' => Hook.pinned p' = Hook.pinned (Effect.props i)) ps ->
             subscribedTo ls n p (Effect.rerenderAll ps i)).
  { clear ps Hall. induction ps as [|p' ps IH]; intros i n Hsub Hps;
      [exact Hsub|].
    pose proof (Forall_inv Hps) as Hhd.
    pose proof (Forall_inv_tail Hps) as Htl. cbn in Hhd. cbn. apply IH.
    - unfold Effect.rerender. rewrite Hhd, Bool.eqb_reflx.
      destruct Hsub as (Hs & Hl & Hp). split; [exact Hs|].
      split; [exact Hl|]. cbn. congruence.
    - unfold Effect.rerender. rewrite Hhd, Bool.eqb_reflx. cbn.
      eapply Forall_impl; [exact Htl|]. cbn. intros a Ha. congruence. }
  destruct (mount_subscribedTo ls p Hls) as [Hm Hpm].
  specialize (H ps _ 0%nat Hm). rewrite Hpm in H. specialize (H Hall).
  split; [by destruct H as (_ & Hl & _)|].
  by apply (dispatch_subscribedTo ls 0 p).
Qed.

(** Mounted with half a second and re-rendered with two seconds, the
    component still builds its timelines with half a second. *)
Lemma handlers_keep_mount_props_witness :
  List.map (fun c => Gsap.defaultDuration (built c))
    (Hook.animations
       (Effect.dispatch (Enter fromTop)
          (Effect.rerenderAll [hookWithDuration 2]
             (Effect.mount (hookWithDuration (1 # 2)) (Some foreignListeners)))))
  = [1 # 2].
Proof.
  destruct (handlers_keep_mount_props foreignListeners
              (hookWithDuration (1 # 2)) [hookWithDuration 2] (Enter fromTop))
    as [_ H]; [reflexivity | by repeat constructor |].
  rewrite H. vm_compute. reflexivity.
Defined.

(** ** Where the overlay comes from and goes to *)

(** X14.  Without inversion and without pinning, in both variants: a
    pointer entering by an edge makes the driver start from the window
    that puts the square on that side of the visible area, and end at the
    center window; a pointer leaving by an edge makes it start at the center
    window and end at the window that puts the square on that side.  The
    overlay comes in from the edge the pointer crossed and goes out by the
    edge the pointer crossed. *)
Theorem overlay_follows_pointer
  (wp : Wrapper.Props) (hp : Hook.Props) (e : MouseEvent) (dir : Direction)
  (ws : Wrapper.State) (hs : Hook.State) :
  getMouseEnterDirection e (target e) = Some dir ->
  Wrapper.fillPin wp = false ->
  Wrapper.fillInvert wp = false ->
  Hook.pinned hp = false ->
  (exists a s,
      wrapperCalls (Wrapper.handleMouseEnter wp e (Wrapper.withIsFilled false ws))
      = wrapperCalls ws ++ [(a, Wrapper.vbCenter, s)]
      /\ hookCalls (Hook.handleMouseEnter hp e (Hook.setHovered false hs))
         = hookCalls hs ++ [(a, Wrapper.vbCenter, s)]
      /\ squareSide a = Some dir)
  /\ (exists b s,
         wrapperCalls
           (Wrapper.handleMouseLeave wp e (Wrapper.withIsFilled true ws))
         = wrapperCalls ws ++ [(Wrapper.vbCenter, b, s)]
         /\ hookCalls (Hook.handleMouseLeave hp e (Hook.setHovered true hs))
            = hookCalls hs ++ [(Wrapper.vbCenter, b, s)]
         /\ squareSide b = Some dir).
Proof.
  intros Hdir Hwp Hinv Hhp.
  unfold Wrapper.handleMouseEnter, Wrapper.handleMouseLeave,
    Hook.handleMouseEnter, Hook.handleMouseLeave.
  cbn. rewrite Hwp, Hinv, Hhp, Hdir.
  unfold wrapperCalls, hookCalls.
  destruct dir; cbn; rewrite !List.map_app; cbn;
    (split; do 2 eexists;
     (split; [reflexivity|]); (split; [reflexivity|]);
     vm_compute; reflexivity).
Qed.

Lemma overlay_follows_pointer_witness :
  exists a s,
    wrapperCalls
      (Wrapper.handleMouseEnter Wrapper.defaultProps fromLeft
         (Wrapper.withIsFilled false (Wrapper.mount Wrapper.defaultProps)))
    = wrapperCalls (Wrapper.mount Wrapper.defaultProps)
      ++ [(a, Wrapper.vbCenter, s)]
    /\ hookCalls
         (Hook.handleMouseEnter Hook.defaultProps fromLeft
            (Hook.setHovered false (Hook.mount Hook.defaultProps)))
       = hookCalls (Hook.mount Hook.defaultProps) ++ [(a, Wrapper.vbCenter, s)]
    /\ squareSide a = Some left.
Proof.
  apply (overlay_follows_pointer Wrapper.defaultProps Hook.defaultProps
           fromLeft left (Wrapper.mount Wrapper.defaultProps)
           (Hook.mount Hook.defaultProps)).
  - vm_compute. reflexivity.
  - reflexivity.
  - reflexivity.
  - reflexivity.
Defined.

(** X15.  In the wrapper without pinning, leaving by the edge the pointer
    entered by sends the overlay back to the window it came from, with or
    without inversion, for every edge but one: with inversion on and the
    left edge the overlay comes from the right-hand window and goes to the
    left-hand one. *)
Theorem leave_retraces_enter
  (p : Wrapper.Props) (e : MouseEvent) (dir : Direction)
  (st st' : Wrapper.State) :
  getMouseEnterDirection e (target e) = Some dir ->
  Wrapper.fillPin p = false ->
  exists a b s s',
    wrapperCalls (Wrapper.handleMouseEnter p e (Wrapper.withIsFilled false st))
    = wrapperCalls st ++ [(a, Wrapper.vbCenter, s)]
    /\ wrapperCalls (Wrapper.handleMouseLeave p e (Wrapper.withIsFilled true st'))
       = wrapperCalls st' ++ [(Wrapper.vbCenter, b, s')]
    /\ (if Wrapper.fillInvert p && Direction_eqb dir left
        then a = Wrapper.vbRight /\ b = Wrapper.vbLeft
        else a = b).
Proof.
  intros Hdir Hpin.
  unfold Wrapper.handleMouseEnter, Wrapper.handleMouseLeave.
  cbn. rewrite Hpin, Hdir. unfold wrapperCalls.
  destruct (Wrapper.fillInvert p), dir; cbn; rewrite !List.map_app; cbn;
    do 4 eexists; (split; [reflexivity|]); (split; [reflexivity|]);
    try split; reflexivity.
Qed.

Lemma leave_retraces_enter_witness :
  exists a b s s',
    wrapperCalls
      (Wrapper.handleMouseEnter (withInvert true Wrapper.defaultProps) fromLeft
         (Wrapper.withIsFilled false (Wrapper.mount Wrapper.defaultProps)))
    = wrapperCalls (Wrapper.mount Wrapper.defaultProps)
      ++ [(a, Wrapper.vbCenter, s)]
    /\ wrapperCalls
         (Wrapper.handleMouseLeave (withInvert true Wrapper.defaultProps)
            fromLeft
            (Wrapper.withIsFilled true (Wrapper.mount Wrapper.defaultProps)))
       = wrapperCalls (Wrapper.mount Wrapper.defaultProps)
         ++ [(Wrapper.vbCenter, b, s')]
    /\ (if Wrapper.fillInvert (withInvert true Wrapper.defaultProps)
           && Direction_eqb left left
        then a = Wrapper.vbRight /\ b = Wrapper.vbLeft
        else a = b).
Proof.
  apply (leave_retraces_enter (withInvert true Wrapper.defaultProps) fromLeft
           left (Wrapper.mount Wrapper.defaultProps)
           (Wrapper.mount Wrapper.defaultProps)).
  - vm_compute. reflexivity.
  - reflexivity.
Defined.

(** ** Re-rendering the hook variant *)

Lemma subscribe_keeps (p : Hook.Props) (i : Effect.Instance) :
  Effect.props (Effect.subscribe p i) = Effect.props i
  /\ Effect.cell (Effect.subscribe p i) = Effect.cell i
  /\ Effect.renderedViewBox (Effect.subscribe p i) = Effect.renderedViewBox i.
Proof. unfold Effect.subscribe. by destruct (Effect.listeners i). Qed.

Lemma cleanup_keeps (i : Effect.Instance) :
  Effect.props (Effect.cleanup i) = Effect.props i
  /\ Effect.cell (Effect.cleanup i) = Effect.cell i
  /\ Effect.renderedViewBox (Effect.cleanup i) = Effect.renderedViewBox i.
Proof.
  unfold Effect.cleanup.
  by destruct (Effect.subscription i) as [[n q]|], (Effect.listeners i).
Qed.

Lemma asRendered_keeps (i j : Effect.Instance) :
  Effect.props j = Effect.props i ->
  Effect.cell j = Effect.cell i ->
  Effect.renderedViewBox j = Effect.renderedViewBox i ->
  asRendered i -> asRendered j.
Proof. unfold asRendered. by intros -> -> ->. Qed.

Lemma rerender_asRendered (i : Effect.Instance) (p' : Hook.Props) :
  asRendered i ->
  asRendered (Effect.rerender i p')
  /\ Effect.props (Effect.rerender i p') = p'.
Proof.
  intros (Hvb & Hr & Hd & Hh & Ha). unfold Effect.rerender. rewrite Hh.
  set (i' := Effect.mkInstance p' _ _ _ _ _).
  assert (Hi' : asRendered i').
  { unfold asRendered, i'. cbn.
    destruct (String.eqb (Hook.vbInit p' false) (Effect.renderedViewBox i))
      eqn:E; cbn.
    - apply String.eqb_eq in E. repeat split; try assumption; congruence.
    - repeat split; assumption. }
  destruct (Bool.eqb _ _); [by split|].
  destruct (cleanup_keeps i') as (Hp1 & Hc1 & Hr1).
  destruct (subscribe_keeps p' (Effect.cleanup i')) as (Hp2 & Hc2 & Hr2).
  split.
  - apply (asRendered_keeps i'); [congruence|congruence|congruence|exact Hi'].
  - by rewrite Hp2, Hp1.
Qed.

(** X16.  As long as no event has arrived, after mounting the hook
    variant and re-rendering it any number of times, with or without a
    parent element, the viewBox attribute is the one of the latest props:
    the center window when they are pinned, the offset window
    ["0 101 100 100"] when they are not.  Pinning or unpinning by a
    re-render shows or hides the square at once, without any call of the
    driver. *)
Theorem rerender_applies_pinned
  (p : Hook.Props) (ps : list Hook.Props)
  (parent : option (list Effect.Listener)) :
  Hook.dom (Effect.cell (Effect.rerenderAll ps (Effect.mount p parent)))
  = mkDOM (if Hook.pinned (latestProps p ps) then "0 0 100 100"
           else "0 101 100 100")
      (Some Hook.squarePath)
  /\ Hook.animations
       (Effect.cell (Effect.rerenderAll ps (Effect.mount p parent))) = []
  /\ Effect.props (Effect.rerenderAll ps (Effect.mount p parent))
     = latestProps p ps.
Proof.
  assert (H : forall ps i,
             asRendered i ->
             asRendered (Effect.rerenderAll ps i)
             /\ Effect.props (Effect.rerenderAll ps i)
                = latestProps (Effect.props i) ps).
  { clear. induction ps as [|p' ps IH] using rev_ind; intros i Hi.
    - by split.
    - unfold Effect.rerenderAll. rewrite fold_left_app. cbn.
      destruct (IH i Hi) as [Hi' _].
      destruct (rerender_asRendered _ p' Hi') as [Hi'' Hp].
      split; [exact Hi''|]. unfold latestProps. by rewrite last_snoc. }
  assert (Hm : asRendered (Effect.mount p parent)).
  { unfold Effect.mount.
    eapply asRendered_keeps; try apply subscribe_keeps. by repeat split. }
  assert (Hpm : Effect.props (Effect.mount p parent) = p).
  { unfold Effect.mount.
    by destruct (subscribe_keeps p
                   (Effect.mkInstance p (Hook.mount p) (Hook.vbInit p false)
                      parent None 0)) as (-> & _). }
  destruct (H ps _ Hm) as [(Hvb & Hr & Hd & Hh & Ha) Hp].
  rewrite Hpm in Hp. split; [|by split].
  destruct (Hook.dom _) as [vb dd]. cbn in Hvb, Hd.
  rewrite Hd, Hvb, Hr, Hp. unfold Hook.vbInit.
  by destruct (Hook.pinned _).
Qed.
